(** * yeval: the asynchronous validation engine

    A shallow embedding of [src/create-validator.js] (the validator builder,
    followed in the same file by the rule runners and combinators of
    [util.js]) and the properties of its specification.

    Modelling decisions, all of them read off the source:

    - JavaScript values are the inductive type [jsval]; numbers are integers,
      objects are association lists in property order (keys are looked up
      by name, [setProp] overwrites in place or appends, as an assignment
      [o[k] = v] does).  Properties inherited from a prototype are not
      modelled, so attribute names are assumed not to name one.
    - A promise is a computation over an abstract [world]: the state that
      rules may read and write (flags, counters, a log).  [bind] is
      [.then]: the continuation runs in the world the first computation
      left, and a rejection skips it.  A synchronous [throw] inside a
      callback and a rejected promise are the same [Rejected] outcome.
    - A built validator is a closure over its rule tree and the mutable
      [wholeData] variable; it is the record [Validator], and [invoke]
      returns the closure after the call together with the promise.
      Invocations of one closure do not overlap. *)

From Stdlib Require Import String Ascii List ZArith Bool Lia.
Import ListNotations.
Open Scope string_scope.

Set Warnings "-register-all".

(** ** JavaScript values *)

Inductive jsval : Type :=
| VUndef
| VNull
| VBool (b : bool)
| VNum (n : Z)
| VStr (s : string)
| VArr (items : list jsval)
| VObj (props : list (string * jsval)).

Definition object := list (string * jsval).

(** [x === undefined] *)
Definition isUndefined (x : jsval) : bool :=
  match x with VUndef => true | _ => false end.

(** [Boolean(x)], also the test behind [!x] and [!!x]. *)
Definition truthy (x : jsval) : bool :=
  match x with
  | VUndef | VNull => false
  | VBool b => b
  | VNum n => negb (n =? 0)%Z
  | VStr s => negb (s =? "")
  | VArr _ | VObj _ => true
  end.

(** lodash [isPlainObject] *)
Definition isPlainObject (x : jsval) : bool :=
  match x with VObj _ => true | _ => false end.

(** lodash [isEmpty]: nullish values, numbers and booleans are empty, a
    string or an array is empty when its length is 0, an object when it has
    no own key. *)
Definition isEmpty (x : jsval) : bool :=
  match x with
  | VUndef | VNull | VBool _ | VNum _ => true
  | VStr s => s =? ""
  | VArr items => match items with [] => true | _ => false end
  | VObj props => match props with [] => true | _ => false end
  end.

(** Own property lookup in an object. *)
Fixpoint lookup (key : string) (props : object) : jsval :=
  match props with
  | [] => VUndef
  | (k, v) :: rest => if k =? key then v else lookup key rest
  end.

(** [o[key] = v] *)
Fixpoint setProp (key : string) (v : jsval) (props : object) : object :=
  match props with
  | [] => [(key, v)]
  | (k, x) :: rest =>
      if k =? key then (k, v) :: rest else (k, x) :: setProp key v rest
  end.

Definition digitOf (c : ascii) : option nat :=
  let n := nat_of_ascii c in
  if (48 <=? n)%nat && (n <=? 57)%nat then Some (n - 48)%nat else None.

Fixpoint digits (s : string) (acc : nat) : option nat :=
  match s with
  | EmptyString => Some acc
  | String c s' =>
      match digitOf c with
      | Some d => digits s' (10 * acc + d)%nat
      | None => None
      end
  end.

(** A property name that is a canonical array index: ["0"], or digits
    without a leading zero. *)
Definition arrayIndex (key : string) : option nat :=
  match key with
  | EmptyString => None
  | String c rest =>
      if (c =? "0")%char
      then match rest with EmptyString => Some 0%nat | _ => None end
      else digits key 0
  end.

Fixpoint charAt (s : string) (n : nat) : jsval :=
  match s, n with
  | EmptyString, _ => VUndef
  | String c _, O => VStr (String c EmptyString)
  | String _ s', S n' => charAt s' n'
  end.

Inductive outcome (A : Type) : Type :=
| Resolved (a : A)
| Rejected (reason : jsval).
Arguments Resolved {A} a.
Arguments Rejected {A} reason.

Definition TypeError (msg : string) : jsval := VStr ("TypeError: " ++ msg).

(** [x[key]]: throws on [undefined] and [null]; strings and arrays answer
    their indices and [length]. *)
Definition getProp (x : jsval) (key : string) : outcome jsval :=
  match x with
  | VUndef | VNull => Rejected (TypeError "Cannot read properties of undefined or null")
  | VBool _ | VNum _ => Resolved VUndef
  | VStr s =>
      if key =? "length" then Resolved (VNum (Z.of_nat (String.length s)))
      else match arrayIndex key with
           | Some n => Resolved (charAt s n)
           | None => Resolved VUndef
           end
  | VArr items =>
      if key =? "length" then Resolved (VNum (Z.of_nat (List.length items)))
      else match arrayIndex key with
           | Some n => Resolved (nth n items VUndef)
           | None => Resolved VUndef
           end
  | VObj props => Resolved (lookup key props)
  end.

(** [Array.prototype.concat] with one argument: an array argument is
    spread into the result, anything else is appended as one element. *)
Definition concat (result : list jsval) (x : jsval) : list jsval :=
  match x with
  | VArr items => result ++ items
  | _ => result ++ [x]
  end.

(** ** util.js: [containsError] *)

Definition containsError (validationResult : jsval) : bool :=
  negb (isUndefined validationResult).

(** ** create-validator.js: [returnUndefinedOnSuccess] *)

Definition returnUndefinedOnSuccess (errors : object) : jsval :=
  if (List.length errors =? 0)%nat then VUndef else VObj errors.

(** ** Promises over a world *)

Section Engine.

Variable world : Type.

Definition Async (A : Type) : Type := world -> outcome A * world.

(** [Promise.resolve(a)] *)
Definition ret {A} (a : A) : Async A := fun w => (Resolved a, w).

(** a [throw], or [Promise.reject(e)] *)
Definition throw {A} (e : jsval) : Async A := fun w => (Rejected e, w).

(** [p.then(k)] *)
Definition bind {A B} (p : Async A) (k : A -> Async B) : Async B :=
  fun w =>
    match p w with
    | (Resolved a, w') => k a w'
    | (Rejected e, w') => (Rejected e, w')
    end.

Notation "x <- p ;; k" := (bind p (fun x => k))
  (at level 61, p at next level, right associativity).

(** A rule: [(value, wholeData) => Promise<ErrorMessage | undefined>]. *)
Definition Rule : Type := jsval -> jsval -> Async jsval.

(** A rule specification, told apart as the source does: a function, an
    array of functions, or a plain object (a nested rule tree, its
    attributes in [Object.keys] order). *)
Inductive RuleSpec : Type :=
| RSRule (rule : Rule)
| RSList (rules : list Rule)
| RSTree (attrs : list (string * RuleSpec)).

Definition RuleTree : Type := list (string * RuleSpec).

(** Calling a plain object as if it were a rule. *)
Definition notAFunction : Rule :=
  fun _ _ => throw (TypeError "rule is not a function").

(** lodash [castArray] *)
Definition castArray (rules : RuleSpec) : list Rule :=
  match rules with
  | RSRule rule => [rule]
  | RSList rules => rules
  | RSTree _ => [notAFunction]
  end.

(** [executeAsync = func => Promise.resolve().then(func)] *)
Definition executeAsync {A} (func : unit -> Async A) : Async A :=
  bind (ret tt) func.

(** ** util.js: [firstError]

    [reduce] is [fold_left].  Inside the callback of [acc.then], [acc] is
    the promise that has just settled with [error]: using it again does not
    run anything again, it is [ret error]. *)
Definition firstError (rules : RuleSpec) : Rule :=
  let rulesToApply := castArray rules in
  fun value data =>
    fold_left
      (fun (acc : Async jsval) (rule : Rule) =>
         error <- acc ;;
         if negb (isUndefined error)
         then ret error
         else (_ <- ret error ;; executeAsync (fun _ => rule value data)))
      rulesToApply
      (ret VUndef).

(** ** util.js: [allErrors] *)
Definition allErrors (rules : RuleSpec) : jsval -> jsval -> Async (list jsval) :=
  let rulesToApply := castArray rules in
  fun value data =>
    fold_left
      (fun (acc : Async (list jsval)) (rule : Rule) =>
         result <- acc ;;
         r <- executeAsync (fun _ => rule value data) ;;
         ret (concat result r))
      rulesToApply
      (ret []).

(** ** util.js: [oneOfRules] *)
Definition oneOfRules (rules : RuleSpec) : Rule :=
  let rulesToApply := castArray rules in
  fun value data =>
    errors <- allErrors (RSList rulesToApply) value data ;;
    if (List.length (filter (fun err => negb (truthy err)) errors) =? 0)%nat
    then ret (nth 0 (filter (fun err => negb (negb (truthy err))) errors) VUndef)
    else ret VUndef.

(** ** create-validator.js: [createValidator]

    The closure returned by [createValidator] keeps the rule tree and the
    variable [wholeData], which line 20 reassigns at every call. *)
Record Validator : Type := {
  perAttributeRules : RuleTree;
  wholeData : jsval
}.

(** The default parameter [wholeData = {}] replaces a missing or
    [undefined] argument. *)
Definition defaultWholeData (wholeData : jsval) : jsval :=
  match wholeData with VUndef => VObj [] | _ => wholeData end.

Definition createValidator (perAttributeRules : RuleTree) (wholeData : jsval)
  : Validator :=
  {| perAttributeRules := perAttributeRules;
     wholeData := defaultWholeData wholeData |}.

(** Line 20: [wholeData = isEmpty(wholeData) ? currentData : wholeData]. *)
Definition captureWholeData (wholeData currentData : jsval) : jsval :=
  if isEmpty wholeData then currentData else wholeData.

(** An executor is one of the functions of the array [executors]; the
    object [errors] that [storeErrors] writes to is threaded through it. *)
Definition Executor : Type := object -> Async (jsval * object).

Definition storeErrors (keyToValidate : string) (errors : object)
  (validationResult : jsval) : object :=
  if containsError validationResult
  then setProp keyToValidate validationResult errors
  else errors.

(** lodash [map] over a plain object, in key order; the iteratee may
    throw. *)
Definition mapObject {A B} (iteratee : A -> string -> outcome B)
  : list (string * A) -> outcome (list B) :=
  fix go (collection : list (string * A)) : outcome (list B) :=
    match collection with
    | [] => Resolved []
    | (key, x) :: rest =>
        match iteratee x key with
        | Rejected e => Rejected e
        | Resolved b =>
            match go rest with
            | Rejected e => Rejected e
            | Resolved bs => Resolved (b :: bs)
            end
        end
    end.

(** [Promise.mapSeries(executors, executor => executor())] *)
Fixpoint mapSeries (executors : list Executor) (errors : object)
  : Async (list jsval * object) :=
  match executors with
  | [] => ret ([], errors)
  | executor :: rest =>
      r <- executor errors ;;
      rs <- mapSeries rest (snd r) ;;
      ret (fst r :: fst rs, snd rs)
  end.

(** Lines 21-48, the body of the closure after [wholeData] is reassigned,
    up to [.then(() => errors)]; [validateFunction] is the iteratee's
    choice of executor (lines 31-42). *)
Definition collectErrors
  (validateFunction : RuleSpec -> string -> jsval -> jsval -> jsval -> Executor)
  (perAttributeRules : RuleTree) (wholeData currentData : jsval) : Async object :=
  match
    mapObject
      (fun rulesForKey keyToValidate =>
         match getProp currentData keyToValidate with
         | Rejected e => Rejected e
         | Resolved dataToValidate =>
             Resolved (validateFunction rulesForKey keyToValidate
                         wholeData currentData dataToValidate)
         end)
      perAttributeRules
  with
  | Rejected e => throw e
  | Resolved executors =>
      done <- mapSeries executors [] ;;
      ret (snd done)
  end.

(** Lines 21-49: [.then(returnUndefinedOnSuccess)] ends the chain. *)
Definition runValidator
  (validateFunction : RuleSpec -> string -> jsval -> jsval -> jsval -> Executor)
  (perAttributeRules : RuleTree) (wholeData currentData : jsval) : Async jsval :=
  errors <- collectErrors validateFunction perAttributeRules
              wholeData currentData ;;
  ret (returnUndefinedOnSuccess errors).

Definition mustBeAnObject (keyToValidate : string) : jsval :=
  VStr ("Property " ++ keyToValidate ++ " must be an object").

Fixpoint validateFunction (rulesForKey : RuleSpec) (keyToValidate : string)
  (wholeData currentData dataToValidate : jsval) {struct rulesForKey}
  : Executor :=
  match rulesForKey with
  | RSTree nested =>
      if negb (isPlainObject dataToValidate)
      then fun errors =>
             r <- ret (mustBeAnObject keyToValidate) ;;
             ret (r, errors)
      else fun errors =>
             validationResult <-
               runValidator validateFunction nested
                 (captureWholeData (defaultWholeData wholeData) dataToValidate)
                 dataToValidate ;;
             ret (VUndef, storeErrors keyToValidate errors validationResult)
  | _ =>
      fun errors =>
        match getProp currentData keyToValidate with
        | Rejected e => throw e
        | Resolved v =>
            validationResult <- firstError rulesForKey v wholeData ;;
            ret (VUndef, storeErrors keyToValidate errors validationResult)
        end
  end.

(** Calling the closure: [validator(currentData)].  The result is the
    closure as the call leaves it, and the promise. *)
Definition invoke (validator : Validator) (currentData : jsval)
  : Validator * Async jsval :=
  let wholeData' := captureWholeData (wholeData validator) currentData in
  ({| perAttributeRules := perAttributeRules validator;
      wholeData := wholeData' |},
   runValidator validateFunction (perAttributeRules validator)
     wholeData' currentData).

(** [createValidator(rules, wholeData)(currentData)], the closure dropped. *)
Definition validate (rules : RuleTree) (wholeData currentData : jsval)
  : Async jsval :=
  snd (invoke (createValidator rules wholeData) currentData).

(** ** util.js: [msgFor] *)
Definition msgFor (rules : RuleSpec) (msg : jsval) : Rule :=
  fun value data =>
    let returnMessageOnError (validationResult : jsval) : jsval :=
      if containsError validationResult then msg else VUndef in
    let validatePromise :=
      match rules with
      | RSTree tree => validate tree VUndef value
      | _ => firstError (RSList (castArray rules)) value data
      end in
    validationResult <- validatePromise ;;
    ret (returnMessageOnError validationResult).

(** The first argument of [when]: a function, or any other value, among
    them a promise, given here by how it settles. *)
Inductive Predicate : Type :=
| PFun (predicate : jsval -> jsval -> Async jsval)
| PValue (predicate : jsval)
| PPromise (settled : outcome jsval).

(** [isFunction(predicate) ? predicate(value, data) : predicate], as the
    value a [then] callback returns. *)
Definition evalPredicate (predicate : Predicate) (value data : jsval)
  : Async jsval :=
  match predicate with
  | PFun f => f value data
  | PValue v => ret v
  | PPromise (Resolved v) => ret v
  | PPromise (Rejected e) => throw e
  end.

(** ** util.js: [when] *)
Definition when (predicate : Predicate) (rules : RuleSpec) : Rule :=
  fun value data =>
    shouldExecute <- (_ <- ret VUndef ;; evalPredicate predicate value data) ;;
    if truthy shouldExecute
    then match rules with
         | RSTree tree => validate tree VUndef value
         | _ => firstError rules value data
         end
    else ret VUndef.

End Engine.

Arguments ret {world A} a _.
Arguments throw {world A} e _.
Arguments bind {world A B} p k _.
Arguments executeAsync {world A} func _.
Arguments RSRule {world} rule.
Arguments RSList {world} rules.
Arguments RSTree {world} attrs.
Arguments notAFunction {world} _ _ _.
Arguments castArray {world} rules.
Arguments firstError {world} rules _ _ _.
Arguments allErrors {world} rules _ _ _.
Arguments oneOfRules {world} rules _ _ _.
Arguments createValidator {world} perAttributeRules wholeData.
Arguments perAttributeRules {world} v.
Arguments wholeData {world} v.
Arguments mapObject {A B} iteratee collection.
Arguments mapSeries {world} executors errors _.
Arguments collectErrors {world} validateFunction perAttributeRules wholeData currentData _.
Arguments runValidator {world} validateFunction perAttributeRules wholeData currentData _.
Arguments validateFunction {world} rulesForKey keyToValidate wholeData currentData dataToValidate _ _.
Arguments invoke {world} validator currentData.
Arguments validate {world} rules wholeData currentData _.
Arguments msgFor {world} rules msg _ _ _.
Arguments PFun {world} predicate.
Arguments PValue {world} predicate.
Arguments PPromise {world} settled.
Arguments evalPredicate {world} predicate value data _.
Arguments when {world} predicate rules _ _ _.

(** * Specification vocabulary *)

(** ** Runs of a list of rules

    [runsAll value data rules w outs w']: called one after the other from
    the world [w], each on [(value, data)] and each in the world its
    predecessor left, the rules resolve with [outs] and leave [w']. *)
Inductive runsAll {world : Type} (value data : jsval)
  : list (Rule world) -> world -> list jsval -> world -> Prop :=
| runsAll_nil : forall w, runsAll value data [] w [] w
| runsAll_cons : forall rule rules w w1 w2 out outs,
    rule value data w = (Resolved out, w1) ->
    runsAll value data rules w1 outs w2 ->
    runsAll value data (rule :: rules) w (out :: outs) w2.

(** What [allErrors] makes of the results: [concat] folded over them. *)
Definition concatAll (outs : list jsval) : list jsval :=
  fold_left concat outs [].

Definition isArray (x : jsval) : bool :=
  match x with VArr _ => true | _ => false end.

(** The values [!err] holds of. *)
Definition falsy (x : jsval) : bool := negb (truthy x).

Section Steps.

Context {world : Type}.

(** The step function of the [reduce] in [firstError]. *)
Definition firstErrorStep (value data : jsval)
  (acc : Async world jsval) (rule : Rule world) : Async world jsval :=
  bind acc (fun error =>
    if negb (isUndefined error)
    then ret error
    else bind (ret error) (fun _ => executeAsync (fun _ => rule value data))).

(** The step function of the [reduce] in [allErrors]. *)
Definition allErrorsStep (value data : jsval)
  (acc : Async world (list jsval)) (rule : Rule world) : Async world (list jsval) :=
  bind acc (fun result =>
    bind (executeAsync (fun _ => rule value data))
         (fun r => ret (concat result r))).

End Steps.

(** ** Rules and worlds used in the examples

    The world is a log of names; [logged name rule] writes [name] when it
    is called and then behaves as [rule]. *)
Definition Log : Type := list string.

Definition answering (out : jsval) : Rule Log := fun _ _ => ret out.

Definition passing : Rule Log := answering VUndef.

Definition failing (message : string) : Rule Log := answering (VStr message).

Definition logged (name : string) (rule : Rule Log) : Rule Log :=
  fun value data w => rule value data (w ++ [name])%list.

(** A rule that fails with the [wholeData] it was given. *)
Definition echoData : Rule Log := fun _ data => ret data.

(** The data of the repository's tests, and their rule that passes only
    when [data.deal] is the deal of the whole form. *)
Definition testValues : jsval :=
  VObj [("deal", VStr "purchase");
        ("car", VObj [("make", VStr "BMW");
                      ("model", VStr "5-er");
                      ("engine", VObj [("displacement", VNum 4);
                                       ("cylinders", VNum 6)])]);
        ("owner", VObj [("name", VStr "Rick"); ("surname", VStr "Astley")])].

Definition needsDeal : Rule Log :=
  fun _ data =>
    match getProp data "deal" with
    | Resolved (VStr "purchase") => ret VUndef
    | Resolved _ => ret (VStr "deal property was not available")
    | Rejected e => throw e
    end.

Definition isString : Rule Log :=
  fun value _ =>
    match value with
    | VStr _ => ret VUndef
    | _ => ret (VStr "Must be a string")
    end.

(** A tree with a failing rule at the top and one two levels down. *)
Definition reportTree : RuleTree Log :=
  [("deal", RSList [isString; failing "Some error"]);
   ("car", RSTree [("make", RSRule passing);
                   ("engine", RSTree [("cylinders",
                                       RSRule (failing "Some error"))])]);
   ("owner", RSTree [("name", RSRule isString)])].

(** ** The attributes of a tree, run in series *)

(** [undefined] and [null], the values a property cannot be read of. *)
Definition nullish (x : jsval) : bool :=
  match x with VUndef | VNull => true | _ => false end.

(** [x[key]] where it does not throw. *)
Definition propOf (x : jsval) (key : string) : jsval :=
  match getProp x key with Resolved v => v | Rejected _ => VUndef end.

(** The array [executors] that [map] builds on data that can be read. *)
Definition executorsOf {world : Type} (tree : RuleTree world)
  (wholeData currentData : jsval) : list (Executor world) :=
  map (fun attr =>
         validateFunction (snd attr) (fst attr) wholeData currentData
           (propOf currentData (fst attr)))
      tree.

(** The executors of [tree] run by [mapSeries] on the errors object
    [errors]; the result is the errors object they leave. *)
Definition runAttributes {world : Type} (tree : RuleTree world)
  (wholeData currentData : jsval) (errors : object) : Async world object :=
  bind (mapSeries (executorsOf tree wholeData currentData) errors)
       (fun done => ret (snd done)).

(** A closure called on one data argument after the other. *)
Definition invokeAll {world : Type} (validator : Validator world)
  (datas : list jsval) : Validator world :=
  fold_left (fun v currentData => fst (invoke v currentData)) datas validator.

(** ** Error reports

    [reportOf tree report]: [report] is an object with at least one key;
    each of its entries is defined and stands under an attribute of
    [tree], and the entry of an attribute whose rules are a nested tree
    is again such a report, for the nested tree.  The entry of an
    attribute with rules of its own is whatever message the rules gave. *)
Inductive reportOf {world : Type} : RuleTree world -> jsval -> Prop :=
| reportOf_intro : forall (tree : RuleTree world) (errors : object),
    errors <> [] ->
    Forall (fun entry =>
              snd entry <> VUndef
              /\ exists spec, In (fst entry, spec) tree
                              /\ entryOf spec (snd entry))
           errors ->
    reportOf tree (VObj errors)
with entryOf {world : Type} : RuleSpec world -> jsval -> Prop :=
| entryOf_rule : forall rule message, entryOf (RSRule rule) message
| entryOf_list : forall rules message, entryOf (RSList rules) message
| entryOf_tree : forall nested report,
    reportOf nested report -> entryOf (RSTree nested) report.

(** A rule that resolves, whatever it is called on. *)
Definition neverRejects {world : Type} (rule : Rule world) : Prop :=
  forall value data w, exists out w', rule value data w = (Resolved out, w').

(** A property of every rule of a rule specification. *)
Inductive ForallRules {world : Type} (P : Rule world -> Prop)
  : RuleSpec world -> Prop :=
| ForallRules_rule : forall rule, P rule -> ForallRules P (RSRule rule)
| ForallRules_list : forall rules,
    Forall P rules -> ForallRules P (RSList rules)
| ForallRules_tree : forall attrs,
    Forall (fun attr => ForallRules P (snd attr)) attrs ->
    ForallRules P (RSTree attrs).

Section Executors.

Context {world : Type}.

(** What an entry of the errors object of [tree] has to be. *)
Definition entryIn (tree : RuleTree world) (entry : string * jsval) : Prop :=
  snd entry <> VUndef
  /\ exists spec, In (fst entry, spec) tree /\ entryOf spec (snd entry).

(** What an executor may do to the errors object: nothing, or store a
    defined result under its key. *)
Definition storesEntry (spec : RuleSpec world) : Prop :=
  forall key wd cur dv errors r w w1,
    validateFunction spec key wd cur dv errors w = (Resolved r, w1) ->
    snd r = errors
    \/ exists v, snd r = setProp key v errors /\ v <> VUndef /\ entryOf spec v.

(** An executor that resolves on data that can be read. *)
Definition executorResolves (spec : RuleSpec world) : Prop :=
  forall key wd cur dv errors w,
    nullish cur = false ->
    exists r w', validateFunction spec key wd cur dv errors w = (Resolved r, w').

End Executors.

(** ** What the attributes hand to [storeErrors]

    [attributeResults wd cur tree w results w']: validated one after the
    other from the world [w] on the data [cur], the attributes of [tree]
    hand the validation results [results] to [storeErrors], each under its
    key, and leave [w'].  An attribute with rules of its own hands over
    what [firstError] resolves with (line 39), an attribute with a nested
    tree and a plain object as value what the nested validator resolves
    with (line 36); on any other value the attribute with a nested tree
    hands nothing over and runs nothing (line 34). *)
Inductive attributeResults {world : Type} (wd cur : jsval)
  : RuleTree world -> world -> list (string * jsval) -> world -> Prop :=
| attributeResults_nil : forall w, attributeResults wd cur [] w [] w
| attributeResults_rules : forall key spec tree w w1 w2 result results,
    (forall nested, spec <> RSTree nested) ->
    firstError spec (propOf cur key) wd w = (Resolved result, w1) ->
    attributeResults wd cur tree w1 results w2 ->
    attributeResults wd cur ((key, spec) :: tree) w
      ((key, result) :: results) w2
| attributeResults_nested : forall key nested tree w w1 w2 result results,
    isPlainObject (propOf cur key) = true ->
    validate nested wd (propOf cur key) w = (Resolved result, w1) ->
    attributeResults wd cur tree w1 results w2 ->
    attributeResults wd cur ((key, RSTree nested) :: tree) w
      ((key, result) :: results) w2
| attributeResults_mismatch : forall key nested tree w w2 results,
    isPlainObject (propOf cur key) = false ->
    attributeResults wd cur tree w results w2 ->
    attributeResults wd cur ((key, RSTree nested) :: tree) w results w2.

(** [storeErrors] called on each of the results, from the errors object
    [errors] on. *)
Definition storeAll (results : list (string * jsval)) (errors : object)
  : object :=
  fold_left (fun errs result => storeErrors (fst result) errs (snd result))
    results errors.

(** ** Values without an empty object

    No object inside [x], [x] included, is without a key. *)
Fixpoint noEmptyObject (x : jsval) : bool :=
  match x with
  | VObj props =>
      negb (List.length props =? 0)%nat
      && forallb (fun entry => noEmptyObject (snd entry)) props
  | VArr items => forallb noEmptyObject items
  | _ => true
  end.

(** A rule whose results hold no empty object. *)
Definition cleanRule {world : Type} (rule : Rule world) : Prop :=
  forall value data w out w',
    rule value data w = (Resolved out, w') -> noEmptyObject out = true.

(** An executor that keeps the errors object free of empty objects. *)
Definition cleanExecutor {world : Type} (spec : RuleSpec world) : Prop :=
  forall key wd cur dv errors r w w1,
    validateFunction spec key wd cur dv errors w = (Resolved r, w1) ->
    Forall (fun entry => noEmptyObject (snd entry) = true) errors ->
    Forall (fun entry => noEmptyObject (snd entry) = true) (snd r).

(** ** Data of the shape of the tree

    [shapeMatches tree data]: under every attribute of [tree] whose rules
    are a nested tree, [data] holds a plain object, and so on down the
    nested trees. *)
Inductive shapeMatches {world : Type} : RuleTree world -> jsval -> Prop :=
| shapeMatches_intro : forall (tree : RuleTree world) (data : jsval),
    Forall (fun attr => attrMatches (snd attr) (propOf data (fst attr))) tree ->
    shapeMatches tree data
with attrMatches {world : Type} : RuleSpec world -> jsval -> Prop :=
| attrMatches_rule : forall rule x, attrMatches (RSRule rule) x
| attrMatches_list : forall rules x, attrMatches (RSList rules) x
| attrMatches_tree : forall nested x,
    isPlainObject x = true ->
    shapeMatches nested x ->
    attrMatches (RSTree nested) x.

(** ** Vocabulary of the further properties *)


(** A rule that rejects. *)
Definition rejecting (reason : string) : Rule Log :=
  fun _ _ => throw (VStr reason).

(** A rule that resolves with [undefined], whatever it is called on. *)
Definition alwaysPasses {world : Type} (rule : Rule world) : Prop :=
  forall value data w, exists w', rule value data w = (Resolved VUndef, w').

(** An executor that resolves and leaves the errors object as it was. *)
Definition storesNothing {world : Type} (spec : RuleSpec world) : Prop :=
  forall key wd cur dv errors w,
    nullish cur = false ->
    exists r w',
      validateFunction spec key wd cur dv errors w = (Resolved r, w')
      /\ snd r = errors.

(** The tree with one rule under the attributes [key], [path]: [key] at
    the top, each further name one tree down. *)
Fixpoint nestAt {world : Type} (key : string) (path : list string)
  (rule : Rule world) : RuleTree world :=
  match path with
  | [] => [(key, RSRule rule)]
  | next :: rest => [(key, RSTree (nestAt next rest rule))]
  end.

(** The value under [key], [path] in [data]. *)
Fixpoint valueAt (data : jsval) (key : string) (path : list string) : jsval :=
  match path with
  | [] => propOf data key
  | next :: rest => valueAt (propOf data key) next rest
  end.

(** Every value on the way down [key], [path], the last apart, is a plain
    object. *)
Fixpoint objectsAlong (data : jsval) (key : string) (path : list string)
  : bool :=
  match path with
  | [] => true
  | next :: rest =>
      isPlainObject (propOf data key)
      && objectsAlong (propOf data key) next rest
  end.

(** The report that holds [out] under [key], [path]; [undefined] when
    [out] is. *)
Fixpoint reportAt (key : string) (path : list string) (out : jsval) : jsval :=
  match path with
  | [] => returnUndefinedOnSuccess (storeErrors key [] out)
  | next :: rest =>
      returnUndefinedOnSuccess (storeErrors key [] (reportAt next rest out))
  end.

(** * Properties *)

(** ** The rule runners *)

Section Runners.

Context {world : Type}.
Implicit Types (rule : Rule world) (rules : list (Rule world)) (w : world).

Lemma runsAll_app value data rules1 rules2 w w1 w2 outs1 outs2 :
  runsAll value data rules1 w outs1 w1 ->
  runsAll value data rules2 w1 outs2 w2 ->
  runsAll value data (rules1 ++ rules2) w (outs1 ++ outs2) w2.
Proof.
  induction 1 as [|rule rules w w' w'' out outs Hrule Hrest IH]; intro H2.
  - exact H2.
  - simpl. econstructor; [exact Hrule | apply IH, H2].
Qed.

Lemma firstError_unfold rules value data w :
  firstError (RSList rules) value data w
  = fold_left (firstErrorStep value data) rules (ret VUndef) w.
Proof. reflexivity. Qed.

(** A chain of [then]s hangs on the promise it starts from. *)
Lemma firstError_chain value data rules :
  forall (acc : Async world jsval) w,
    fold_left (firstErrorStep value data) rules acc w
    = match acc w with
      | (Resolved error, w1) =>
          fold_left (firstErrorStep value data) rules (ret error) w1
      | (Rejected e, w1) => (Rejected e, w1)
      end.
Proof.
  induction rules as [|rule rules IH]; intros acc w; simpl.
  - destruct (acc w) as [[error|e] w1]; reflexivity.
  - rewrite IH. unfold firstErrorStep at 1. unfold bind at 1.
    destruct (acc w) as [[error|e] w1]; [|reflexivity].
    rewrite (IH (firstErrorStep value data (ret error) rule)).
    reflexivity.
Qed.

(** Once an error is there, the rest of the chain passes it on. *)
Lemma firstError_stops value data rules error w :
  error <> VUndef ->
  fold_left (firstErrorStep value data) rules (ret error) w
  = (Resolved error, w).
Proof.
  intro Hdef. revert w.
  induction rules as [|rule rules IH]; intro w; simpl; [reflexivity|].
  rewrite firstError_chain.
  destruct error; try contradiction; simpl; apply IH.
Qed.

Lemma firstError_cons rule rules value data w :
  firstError (RSList (rule :: rules)) value data w
  = match rule value data w with
    | (Resolved error, w1) =>
        if isUndefined error
        then firstError (RSList rules) value data w1
        else (Resolved error, w1)
    | (Rejected e, w1) => (Rejected e, w1)
    end.
Proof.
  rewrite firstError_unfold. simpl. rewrite firstError_chain.
  change (firstErrorStep value data (ret VUndef) rule w)
    with (rule value data w).
  destruct (rule value data w) as [[error|e] w1]; [|reflexivity].
  destruct error; try (apply firstError_stops; discriminate).
  reflexivity.
Qed.

Lemma firstError_nil value data w :
  firstError (RSList (@nil (Rule world))) value data w = (Resolved VUndef, w).
Proof. reflexivity. Qed.

Lemma firstError_single rule value data w :
  firstError (RSRule rule) value data w
  = firstError (RSList [rule]) value data w.
Proof. reflexivity. Qed.

(** Rules that pass are run through. *)
Lemma firstError_passes value data rules1 rules2 w w1 outs :
  runsAll value data rules1 w outs w1 ->
  Forall (fun out => out = VUndef) outs ->
  firstError (RSList (rules1 ++ rules2)) value data w
  = firstError (RSList rules2) value data w1.
Proof.
  induction 1 as [|rule rules w w' w'' out outs Hrule Hrest IH]; intro Hall.
  - reflexivity.
  - inversion Hall as [|? ? Hout Houts]; subst.
    simpl app. rewrite firstError_cons, Hrule. simpl. apply IH, Houts.
Qed.

Lemma allErrors_unfold rules value data w :
  allErrors (RSList rules) value data w
  = fold_left (allErrorsStep value data) rules (ret []) w.
Proof. reflexivity. Qed.

Lemma allErrors_chain value data rules :
  forall (acc : Async world (list jsval)) w,
    fold_left (allErrorsStep value data) rules acc w
    = match acc w with
      | (Resolved result, w1) =>
          fold_left (allErrorsStep value data) rules (ret result) w1
      | (Rejected e, w1) => (Rejected e, w1)
      end.
Proof.
  induction rules as [|rule rules IH]; intros acc w; simpl.
  - destruct (acc w) as [[result|e] w1]; reflexivity.
  - rewrite IH. unfold allErrorsStep at 1. unfold bind at 1.
    destruct (acc w) as [[result|e] w1]; [|reflexivity].
    rewrite (IH (allErrorsStep value data (ret result) rule)).
    reflexivity.
Qed.

(** [allErrors] runs every rule and folds [concat] over the results. *)
Lemma allErrors_from value data rules :
  forall w outs w' result,
    runsAll value data rules w outs w' ->
    fold_left (allErrorsStep value data) rules (ret result) w
    = (Resolved (fold_left concat outs result), w').
Proof.
  induction rules as [|rule rules IH]; intros w outs w' result Hruns;
    inversion Hruns as [|? ? ? w1 ? out outs' Hrule Hrest]; subst; simpl.
  - reflexivity.
  - rewrite allErrors_chain.
    change (allErrorsStep value data (ret result) rule w)
      with (bind (rule value data) (fun r => ret (concat result r)) w).
    unfold bind at 1. rewrite Hrule. simpl.
    apply IH, Hrest.
Qed.

Lemma allErrors_runsAll value data rules w outs w' :
  runsAll value data rules w outs w' ->
  allErrors (RSList rules) value data w = (Resolved (concatAll outs), w').
Proof. intro H. rewrite allErrors_unfold. apply allErrors_from, H. Qed.

Lemma concat_no_array outs :
  Forall (fun out => isArray out = false) outs ->
  forall result, fold_left concat outs result = (result ++ outs)%list.
Proof.
  induction 1 as [|out outs Hout Houts IH]; intro result; simpl.
  - now rewrite app_nil_r.
  - rewrite IH. destruct out; try discriminate;
      simpl; now rewrite <- app_assoc.
Qed.

End Runners.

(** ** Claims about the rule runners *)

(** C3 -- [firstError] runs its rules in order.  When the rules before the
    N-th all resolve with [undefined] and the N-th resolves with a defined
    message, [firstError] resolves with exactly that message in the world
    the N-th rule left: whatever rules follow, none of them has run, and
    the outcome is that of the list cut after the N-th rule.  When every
    rule resolves with [undefined], [firstError] resolves with [undefined]
    after the last one. *)
Theorem firstError_first_failure :
  forall (world : Type) (value data : jsval)
         (before : list (Rule world)) (rule : Rule world)
         (after : list (Rule world)) (w w1 w2 : world)
         (outs : list jsval) (message : jsval),
    runsAll value data before w outs w1 ->
    Forall (fun out => out = VUndef) outs ->
    (rule value data w1 = (Resolved message, w2) ->
     message <> VUndef ->
     firstError (RSList (before ++ rule :: after)) value data w
       = (Resolved message, w2)
     /\ firstError (RSList (before ++ rule :: after)) value data w
        = firstError (RSList (before ++ [rule])) value data w)
    /\ firstError (RSList before) value data w = (Resolved VUndef, w1).
Proof.
  intros world value data before rule after w w1 w2 outs message Hruns Hall.
  split.
  - intros Hrule Hdef.
    assert (Hcut : forall rest,
               firstError (RSList (before ++ rule :: rest)) value data w
               = (Resolved message, w2)).
    { intro rest.
      rewrite (firstError_passes _ _ _ (rule :: rest) _ _ _ Hruns Hall),
        firstError_cons, Hrule.
      destruct message; try reflexivity. contradiction. }
    split; [apply Hcut|].
    rewrite (Hcut after). symmetry. apply Hcut.
  - rewrite <- (app_nil_r before).
    rewrite (firstError_passes _ _ _ [] _ _ _ Hruns Hall). reflexivity.
Qed.

(** The second rule fails; the third is never called, as the log shows. *)
Lemma firstError_first_failure_witness :
  firstError
    (RSList ([logged "first" passing]
             ++ logged "second" (failing "Some error")
             :: [logged "third" (failing "Other error")]))
    (VStr "someValue") VNull []
  = (Resolved (VStr "Some error"), ["first"; "second"]).
Proof.
  refine (proj1 (proj1 (firstError_first_failure
           Log (VStr "someValue") VNull
           [logged "first" passing]
           (logged "second" (failing "Some error"))
           [logged "third" (failing "Other error")]
           [] ["first"] ["first"; "second"]
           [VUndef] (VStr "Some error")
           _ _) _ _)).
  - econstructor; [reflexivity | constructor].
  - repeat constructor.
  - reflexivity.
  - discriminate.
Defined.

(** When no rule answers an array, [allErrors] has one entry for each
    rule, in the order of the rules, [undefined] entries among them. *)
Lemma allErrors_one_entry_per_rule :
  forall (world : Type) (value data : jsval) (rules : list (Rule world))
         (w w' : world) (outs : list jsval),
    runsAll value data rules w outs w' ->
    Forall (fun out => isArray out = false) outs ->
    allErrors (RSList rules) value data w = (Resolved outs, w').
Proof.
  intros world value data rules w w' outs Hruns Hno.
  rewrite (allErrors_runsAll _ _ _ _ _ _ Hruns). unfold concatAll.
  now rewrite (concat_no_array _ Hno).
Qed.

(** [allErrors] runs every rule, in order and whatever the rules before
    resolved with, and resolves in the world the last rule left with
    [concat] folded over the results: where no result is an array, one
    entry for each rule, the [undefined] entries of passing rules among
    them. *)
Lemma allErrors_collects_every_result :
  forall (world : Type) (value data : jsval) (rules : list (Rule world))
         (w w' : world) (outs : list jsval),
    runsAll value data rules w outs w' ->
    allErrors (RSList rules) value data w = (Resolved (concatAll outs), w')
    /\ (Forall (fun out => isArray out = false) outs ->
        allErrors (RSList rules) value data w = (Resolved outs, w')
        /\ List.length outs = List.length rules).
Proof.
  intros world value data rules w w' outs Hruns.
  split.
  - exact (allErrors_runsAll _ _ _ _ _ _ Hruns).
  - intro Hno. split.
    + exact (allErrors_one_entry_per_rule _ _ _ _ _ _ _ Hruns Hno).
    + clear Hno. induction Hruns; simpl; congruence.
Qed.

(** A failing rule between two passing ones: three entries, all three
    rules logged. *)
Lemma allErrors_collects_every_result_witness :
  allErrors
    (RSList [logged "r1" passing; logged "r2" (failing "second");
             logged "r3" passing])
    VNull VNull []
  = (Resolved [VUndef; VStr "second"; VUndef], ["r1"; "r2"; "r3"]).
Proof.
  refine (proj1 (proj2 (allErrors_collects_every_result Log VNull VNull
           [logged "r1" passing; logged "r2" (failing "second");
            logged "r3" passing]
           [] ["r1"; "r2"; "r3"] [VUndef; VStr "second"; VUndef] _) _)).
  - econstructor; [reflexivity|]. econstructor; [reflexivity|].
    econstructor; [reflexivity|]. constructor.
  - repeat constructor.
Defined.

(** One entry for each rule does not hold of every rule: a single rule
    resolves with the array [['a', 'b']], and [allErrors] resolves with
    the two entries ['a'] and ['b'], not with the one result of the
    rule. *)
Lemma allErrors_not_one_entry_per_rule :
  ~ (forall (rules : list (Rule Log)) (value data : jsval) (w w' : Log)
            (outs : list jsval),
        runsAll value data rules w outs w' ->
        allErrors (RSList rules) value data w = (Resolved outs, w')).
Proof.
  intro H.
  assert (Hruns : runsAll VNull VNull
                    [answering (VArr [VStr "a"; VStr "b"])] []
                    [VArr [VStr "a"; VStr "b"]] []).
  { econstructor; [reflexivity | constructor]. }
  apply H in Hruns. discriminate Hruns.
Qed.

(** C10 -- [allErrors] at a rule whose message is an array: line 84
    appends with [concat], which spreads the array, so among rules that
    answer no array the rule contributes the elements of its message, as
    many entries as the message has elements (none for an empty array),
    and not its message as one entry.  The other paths keep the message
    whole: [firstError] resolves with the array itself; and [oneOfRules],
    which reads the result of [allErrors] as one entry for each rule,
    resolves with [undefined] on a single rule that fails with the empty
    array. *)
Theorem allErrors_spreads_array_result :
  forall (world : Type) (value data : jsval)
         (before after : list (Rule world)) (items : list jsval)
         (w w1 w2 : world) (outs1 outs2 : list jsval),
    runsAll value data before w outs1 w1 ->
    runsAll value data after w1 outs2 w2 ->
    Forall (fun out => isArray out = false) outs1 ->
    Forall (fun out => isArray out = false) outs2 ->
    allErrors (RSList (before ++ (fun _ _ => ret (VArr items)) :: after))
      value data w
    = (Resolved (outs1 ++ items ++ outs2)%list, w2)
    /\ firstError (RSList [fun _ _ => ret (VArr items)]) value data w
       = (Resolved (VArr items), w)
    /\ oneOfRules (RSList [fun _ _ => ret (VArr [])]) value data w
       = (Resolved VUndef, w).
Proof.
  intros world value data before after items w w1 w2 outs1 outs2
         Hbefore Hafter Hno1 Hno2.
  split; [|split; reflexivity].
  assert (Hruns : runsAll value data
                    (before ++ (fun _ _ => ret (VArr items)) :: after)
                    w (outs1 ++ VArr items :: outs2) w2).
  { apply (runsAll_app _ _ _ _ _ _ _ _ _ Hbefore).
    econstructor; [reflexivity | exact Hafter]. }
  rewrite (allErrors_runsAll _ _ _ _ _ _ Hruns).
  unfold concatAll. rewrite fold_left_app.
  rewrite (concat_no_array _ Hno1). cbn [fold_left concat app].
  rewrite (concat_no_array _ Hno2). now rewrite <- app_assoc.
Qed.

(** Three rules, the second answering [['a', 'b']]: four entries. *)
Lemma allErrors_spreads_array_result_witness :
  allErrors
    (RSList ([logged "r1" (failing "first")]
             ++ (fun _ _ => ret (VArr [VStr "a"; VStr "b"]))
             :: [logged "r3" passing]))
    VNull VNull []
  = (Resolved [VStr "first"; VStr "a"; VStr "b"; VUndef], ["r1"; "r3"]).
Proof.
  refine (proj1 (allErrors_spreads_array_result Log VNull VNull
           [logged "r1" (failing "first")] [logged "r3" passing]
           [VStr "a"; VStr "b"] [] ["r1"] ["r1"; "r3"]
           [VStr "first"] [VUndef] _ _ _ _)).
  - econstructor; [reflexivity | constructor].
  - econstructor; [reflexivity | constructor].
  - repeat constructor.
  - repeat constructor.
Defined.

Lemma filter_falsy_length outs :
  (List.length (filter (fun err => negb (truthy err)) outs) =? 0)%nat
  = negb (existsb falsy outs).
Proof.
  induction outs as [|out outs IH]; simpl; [reflexivity|].
  unfold falsy at 1. destruct (truthy out); simpl; [exact IH | reflexivity].
Qed.

Lemma filter_truthy_all outs :
  existsb falsy outs = false ->
  filter (fun err => negb (negb (truthy err))) outs = outs.
Proof.
  induction outs as [|out outs IH]; simpl; [reflexivity|].
  unfold falsy at 1. destruct (truthy out); simpl; [|discriminate].
  intro H. now rewrite IH.
Qed.

Lemma oneOfRules_runsAll :
  forall (world : Type) (value data : jsval) (rules : list (Rule world))
         (w w' : world) (outs : list jsval),
    runsAll value data rules w outs w' ->
    Forall (fun out => isArray out = false) outs ->
    oneOfRules (RSList rules) value data w
    = (Resolved (if existsb falsy outs then VUndef else hd VUndef outs), w').
Proof.
  intros world value data rules w w' outs Hruns Hno.
  unfold oneOfRules. simpl castArray. unfold bind at 1.
  rewrite (allErrors_one_entry_per_rule _ _ _ _ _ _ _ Hruns Hno).
  rewrite filter_falsy_length.
  destruct (existsb falsy outs) eqn:E; simpl; [reflexivity|].
  rewrite (filter_truthy_all _ E). destruct outs; reflexivity.
Qed.

(** [oneOfRules] tests its results with [!err], not with
    [containsError]: for rules whose results are not arrays, it resolves
    with [undefined] as soon as one rule resolved with a falsy value
    ([undefined], [null], [false], [0] or the empty string), and with the
    first rule's message when every rule resolved with a truthy one.  So
    it resolves with [undefined] iff some rule resolved with a falsy value
    or there is no rule. *)
Lemma oneOfRules_passes_on_falsy :
  forall (world : Type) (value data : jsval) (rules : list (Rule world))
         (w w' : world) (outs : list jsval),
    runsAll value data rules w outs w' ->
    Forall (fun out => isArray out = false) outs ->
    oneOfRules (RSList rules) value data w
    = (Resolved (if existsb falsy outs then VUndef else hd VUndef outs), w')
    /\ (oneOfRules (RSList rules) value data w = (Resolved VUndef, w')
        <-> Exists (fun out => falsy out = true) outs \/ outs = []).
Proof.
  intros world value data rules w w' outs Hruns Hno.
  pose proof (oneOfRules_runsAll _ _ _ _ _ _ _ Hruns Hno) as Heq.
  split; [exact Heq|]. rewrite Heq.
  destruct (existsb falsy outs) eqn:E.
  - split; [intros _; left | reflexivity].
    apply existsb_exists in E. apply Exists_exists. exact E.
  - split.
    + destruct outs as [|out outs']; [now right|]. simpl.
      intro H. injection H as H. subst out. discriminate E.
    + intros [Hex | Hnil].
      * apply Exists_exists, existsb_exists in Hex. congruence.
      * subst outs. reflexivity.
Qed.

Lemma oneOfRules_passes_on_falsy_witness :
  oneOfRules (RSList [logged "r1" (failing "first"); logged "r2" (answering (VNum 0))])
    VNull VNull []
  = (Resolved VUndef, ["r1"; "r2"]).
Proof.
  refine (proj1 (oneOfRules_passes_on_falsy
           Log VNull VNull
           [logged "r1" (failing "first"); logged "r2" (answering (VNum 0))]
           [] ["r1"; "r2"] [VStr "first"; VNum 0]
           _ _)).
  - econstructor; [reflexivity|]. econstructor; [reflexivity|]. constructor.
  - repeat constructor.
Defined.

(** [undefined] from [oneOfRules] does not take a rule that resolved with
    [undefined]: the only rule resolves with the empty string, a failure
    for [containsError], and [oneOfRules] resolves with [undefined]. *)
Lemma oneOfRules_not_containsError :
  ~ (forall (rules : list (Rule Log)) (value data : jsval) (w w' : Log)
            (outs : list jsval),
        runsAll value data rules w outs w' ->
        (oneOfRules (RSList rules) value data w = (Resolved VUndef, w')
         <-> Exists (fun out => containsError out = false) outs)).
Proof.
  intro H.
  assert (Hruns : runsAll VNull VNull [answering (VStr "")] [] [VStr ""] []).
  { econstructor; [reflexivity | constructor]. }
  apply H in Hruns. destruct Hruns as [Hto _].
  specialize (Hto eq_refl).
  inversion Hto as [? ? Hhd | ? ? Htl]; subst.
  - discriminate Hhd.
  - inversion Htl.
Qed.

(** C4 -- [oneOfRules] on a rule that fails with a defined falsy message
    ([null], [false], [0], the empty string): the message is an error for
    [containsError] (line 140), [firstError] resolves with it (line 98) and
    [storeErrors] records it (line 26), but lines 133-134 test with [!err]
    and [!!err], and [oneOfRules] resolves with [undefined] although no
    rule resolved with [undefined]. *)
Theorem oneOfRules_passes_defined_falsy_message :
  forall (world : Type) (message value data : jsval) (key : string)
         (w : world),
    message <> VUndef ->
    truthy message = false ->
    containsError message = true
    /\ firstError (RSList [fun _ _ => ret message]) value data w
       = (Resolved message, w)
    /\ storeErrors key [] message = [(key, message)]
    /\ oneOfRules (RSList [fun _ _ => ret message]) value data w
       = (Resolved VUndef, w).
Proof.
  intros world message value data key w Hdef Hfalsy.
  assert (Hc : containsError message = true)
    by (destruct message; try reflexivity; contradiction).
  split; [exact Hc|]. split; [|split].
  - destruct message; reflexivity.
  - unfold storeErrors. now rewrite Hc.
  - assert (Hruns : runsAll value data
                      [(fun _ _ => ret message) : Rule world] w [message] w).
    { econstructor; [reflexivity | constructor]. }
    assert (Hno : Forall (fun out => isArray out = false) [message]).
    { constructor; [|constructor].
      destruct message; try reflexivity. discriminate Hfalsy. }
    etransitivity;
      [exact (oneOfRules_runsAll _ _ _ _ _ _ _ Hruns Hno)|].
    cbn [existsb]. unfold falsy. now rewrite Hfalsy.
Qed.

(** [oneOfRules([() => ''])] resolves with [undefined]. *)
Lemma oneOfRules_passes_defined_falsy_message_witness :
  oneOfRules (RSList [fun _ _ => ret (VStr "")]) VNull VNull ([] : Log)
  = (Resolved VUndef, []).
Proof.
  refine (proj2 (proj2 (proj2 (oneOfRules_passes_defined_falsy_message Log
            (VStr "") VNull VNull "a" [] _ eq_refl)))).
  discriminate.
Defined.

(** ** The validator *)

Section ValidatorLemmas.

Context {world : Type}.
Implicit Types (tree : RuleTree world) (w : world).

Lemma getProp_propOf x key :
  nullish x = false -> getProp x key = Resolved (propOf x key).
Proof.
  unfold propOf. destruct x; try discriminate; intros _; simpl;
    try reflexivity;
    destruct (key =? "length"); try reflexivity;
    destruct (arrayIndex key); reflexivity.
Qed.

Lemma mapObject_executors tree wd cur :
  nullish cur = false ->
  mapObject
    (fun rulesForKey keyToValidate =>
       match getProp cur keyToValidate with
       | Rejected e => Rejected e
       | Resolved dataToValidate =>
           Resolved (validateFunction rulesForKey keyToValidate
                       wd cur dataToValidate)
       end)
    tree
  = Resolved (executorsOf tree wd cur).
Proof.
  intro Hcur. induction tree as [|[key spec] tree IH]; simpl; [reflexivity|].
  rewrite getProp_propOf by exact Hcur. rewrite IH. reflexivity.
Qed.

Lemma collectErrors_runAttributes tree wd cur w :
  nullish cur = false ->
  collectErrors validateFunction tree wd cur w = runAttributes tree wd cur [] w.
Proof.
  intro Hcur. unfold collectErrors, runAttributes.
  now rewrite mapObject_executors by exact Hcur.
Qed.

(** Data that cannot be read makes the call throw before any rule runs. *)
Lemma collectErrors_nullish tree wd cur w :
  nullish cur = true -> tree <> [] ->
  exists e, collectErrors validateFunction tree wd cur w = (Rejected e, w).
Proof.
  intros Hcur Htree. destruct tree as [|[key spec] tree]; [contradiction|].
  unfold collectErrors. simpl.
  destruct cur; try discriminate; simpl; eexists; reflexivity.
Qed.

Lemma mapSeries_app (execs1 execs2 : list (Executor world)) errors w :
  mapSeries (execs1 ++ execs2) errors w
  = match mapSeries execs1 errors w with
    | (Resolved done1, w1) =>
        match mapSeries execs2 (snd done1) w1 with
        | (Resolved done2, w2) =>
            (Resolved ((fst done1 ++ fst done2)%list, snd done2), w2)
        | (Rejected e, w2) => (Rejected e, w2)
        end
    | (Rejected e, w1) => (Rejected e, w1)
    end.
Proof.
  revert errors w.
  induction execs1 as [|exec execs1 IH]; intros errors w; simpl.
  - unfold ret. destruct (mapSeries execs2 errors w) as [[[rs errs]|e] w2];
      reflexivity.
  - unfold bind at 1 3. destruct (exec errors w) as [[r|e] w1]; [|reflexivity].
    unfold bind at 1 2. rewrite IH.
    destruct (mapSeries execs1 (snd r) w1) as [[done1|e] w2]; [|reflexivity].
    simpl.
    destruct (mapSeries execs2 (snd done1) w2) as [[done2|e] w3]; reflexivity.
Qed.

Lemma runAttributes_app tree1 tree2 wd cur errors w :
  runAttributes (tree1 ++ tree2)%list wd cur errors w
  = match runAttributes tree1 wd cur errors w with
    | (Resolved errors1, w1) => runAttributes tree2 wd cur errors1 w1
    | (Rejected e, w1) => (Rejected e, w1)
    end.
Proof.
  unfold runAttributes, executorsOf. rewrite map_app.
  unfold bind. rewrite mapSeries_app.
  destruct (mapSeries _ errors w) as [[done1|e] w1]; [|reflexivity].
  simpl.
  destruct (mapSeries _ (snd done1) w1) as [[done2|e] w2]; reflexivity.
Qed.

Lemma runAttributes_nil wd cur errors w :
  runAttributes (@nil (string * RuleSpec world)) wd cur errors w
  = (Resolved errors, w).
Proof. reflexivity. Qed.

Lemma runAttributes_cons key spec tree wd cur errors w :
  runAttributes ((key, spec) :: tree) wd cur errors w
  = match validateFunction spec key wd cur (propOf cur key) errors w with
    | (Resolved r, w1) => runAttributes tree wd cur (snd r) w1
    | (Rejected e, w1) => (Rejected e, w1)
    end.
Proof.
  unfold runAttributes, executorsOf. simpl. unfold bind.
  destruct (validateFunction spec key wd cur (propOf cur key) errors w)
    as [[r|e] w1]; [|reflexivity].
  destruct (mapSeries _ (snd r) w1) as [[done|e] w2]; reflexivity.
Qed.

Lemma validate_unfold tree seed cur w :
  validate tree seed cur w
  = match collectErrors validateFunction tree
            (captureWholeData (defaultWholeData seed) cur) cur w with
    | (Resolved errors, w1) => (Resolved (returnUndefinedOnSuccess errors), w1)
    | (Rejected e, w1) => (Rejected e, w1)
    end.
Proof. reflexivity. Qed.

(** The executor of a nested tree calls
    [createValidator(rulesForKey, wholeData)(dataToValidate)]. *)
Lemma validateFunction_tree nested key wd cur dv errors w :
  validateFunction (RSTree nested) key wd cur dv errors w
  = if negb (isPlainObject dv)
    then (Resolved (mustBeAnObject key, errors), w)
    else match validate nested wd dv w with
         | (Resolved validationResult, w1) =>
             (Resolved (VUndef, storeErrors key errors validationResult), w1)
         | (Rejected e, w1) => (Rejected e, w1)
         end.
Proof.
  destruct dv; reflexivity.
Qed.

Lemma charAt_not_object (s : string) (n : nat) :
  isPlainObject (charAt s n) = false.
Proof.
  revert n. induction s as [|c s IH]; intros [|n]; simpl; auto.
Qed.

(** Data with a plain object under one of its keys is not empty. *)
Lemma object_attribute_non_empty data key :
  isPlainObject (propOf data key) = true -> isEmpty data = false.
Proof.
  unfold propOf.
  destruct data as [| | | |s|items|props]; simpl; try discriminate.
  - destruct (key =? "length"); [discriminate|].
    destruct (arrayIndex key); [|discriminate].
    now rewrite charAt_not_object.
  - destruct items; [|reflexivity].
    destruct (key =? "length"); [discriminate|].
    destruct (arrayIndex key) as [[|n]|]; discriminate.
  - destruct props; [discriminate | reflexivity].
Qed.

(** A tree nested directly is validated with the [wholeData] of the
    validator around it: line 36 passes it on, and the nested closure
    keeps a baseline that is not empty. *)
Lemma nested_tree_keeps_wholeData nested key wd cur errors w :
  isEmpty wd = false ->
  isPlainObject (propOf cur key) = true ->
  validateFunction (RSTree nested) key wd cur (propOf cur key) errors w
  = match runValidator validateFunction nested wd (propOf cur key) w with
    | (Resolved validationResult, w1) =>
        (Resolved (VUndef, storeErrors key errors validationResult), w1)
    | (Rejected e, w1) => (Rejected e, w1)
    end.
Proof.
  intros Hwd Hplain. rewrite validateFunction_tree, Hplain. cbn [negb].
  unfold validate, invoke, createValidator. cbn [snd wholeData perAttributeRules].
  assert (Hkeep : captureWholeData (defaultWholeData wd) (propOf cur key) = wd).
  { destruct wd; try discriminate; unfold captureWholeData;
      cbn [defaultWholeData]; now rewrite Hwd. }
  now rewrite Hkeep.
Qed.

(** So under a validator built without a seed, the tree of an attribute
    is validated with the data the validator was called on. *)
Lemma top_level_tree_receives_data nested key seed data errors w :
  isEmpty (defaultWholeData seed) = true ->
  isPlainObject (propOf data key) = true ->
  validateFunction (RSTree nested) key
    (captureWholeData (defaultWholeData seed) data) data (propOf data key)
    errors w
  = match runValidator validateFunction nested data (propOf data key) w with
    | (Resolved validationResult, w1) =>
        (Resolved (VUndef, storeErrors key errors validationResult), w1)
    | (Rejected e, w1) => (Rejected e, w1)
    end.
Proof.
  intros Hseed Hplain.
  assert (Hcap : captureWholeData (defaultWholeData seed) data = data).
  { unfold captureWholeData. now rewrite Hseed. }
  rewrite Hcap. apply nested_tree_keeps_wholeData; [|exact Hplain].
  exact (object_attribute_non_empty _ _ Hplain).
Qed.

Lemma firstError_app (rules1 rules2 : list (Rule world)) value data w :
  firstError (RSList (rules1 ++ rules2)) value data w
  = match firstError (RSList rules1) value data w with
    | (Resolved error, w1) =>
        if isUndefined error
        then firstError (RSList rules2) value data w1
        else (Resolved error, w1)
    | (Rejected e, w1) => (Rejected e, w1)
    end.
Proof.
  revert w. induction rules1 as [|rule rules1 IH]; intro w.
  - reflexivity.
  - simpl app. rewrite !firstError_cons.
    destruct (rule value data w) as [[error|e] w1]; [|reflexivity].
    destruct (isUndefined error) eqn:E; [apply IH|].
    now rewrite E.
Qed.

(** The executor of an attribute with rules of its own. *)
Lemma validateFunction_rules (spec : RuleSpec world) key wd cur dv errors w :
  (forall nested, spec <> RSTree nested) ->
  validateFunction spec key wd cur dv errors w
  = match getProp cur key with
    | Rejected e => (Rejected e, w)
    | Resolved v =>
        match firstError spec v wd w with
        | (Resolved validationResult, w1) =>
            (Resolved (VUndef, storeErrors key errors validationResult), w1)
        | (Rejected e, w1) => (Rejected e, w1)
        end
    end.
Proof.
  intro Hrules.
  destruct spec as [rule|rules|nested];
    [| | exfalso; exact (Hrules nested eq_refl)];
    cbn [validateFunction]; destruct (getProp cur key); reflexivity.
Qed.

(** A tree with one attribute and one rule calls the rule on the
    attribute's value and on [wholeData]. *)
Lemma runValidator_single_rule key (rule : Rule world) wd cur w :
  nullish cur = false ->
  runValidator validateFunction [(key, RSRule rule)] wd cur w
  = match rule (propOf cur key) wd w with
    | (Resolved out, w1) =>
        (Resolved (returnUndefinedOnSuccess (storeErrors key [] out)), w1)
    | (Rejected e, w1) => (Rejected e, w1)
    end.
Proof.
  intro Hcur. unfold runValidator, bind.
  rewrite collectErrors_runAttributes by exact Hcur.
  rewrite runAttributes_cons, validateFunction_rules by discriminate.
  rewrite getProp_propOf by exact Hcur.
  rewrite firstError_single, firstError_cons.
  destruct (rule (propOf cur key) wd w) as [[out|e] w1]; [|reflexivity].
  destruct out; reflexivity.
Qed.

End ValidatorLemmas.


(** ** Claims about the validator *)

(** C5 -- The attributes are validated in series, in the order of the
    tree.  For a tree [before ++ after] the validator first runs the
    attributes of [before] to the end, nested trees included, and only then,
    in the world they left and on the errors they stored, those of [after];
    when an attribute of [before] rejects, none of [after] runs.  An
    attribute's executor runs before those of the attributes after it, and
    within one rule list the rules of [rules2] start where [rules1] has
    resolved. *)
Theorem attributes_validated_in_series :
  forall (world : Type) (before after : RuleTree world)
         (seed data : jsval) (w : world),
    nullish data = false ->
    validate (before ++ after)%list seed data w
    = match runAttributes before
              (captureWholeData (defaultWholeData seed) data) data [] w with
      | (Resolved errors1, w1) =>
          match runAttributes after
                  (captureWholeData (defaultWholeData seed) data) data
                  errors1 w1 with
          | (Resolved errors, w2) =>
              (Resolved (returnUndefinedOnSuccess errors), w2)
          | (Rejected e, w2) => (Rejected e, w2)
          end
      | (Rejected e, w1) => (Rejected e, w1)
      end
    /\ (forall (key : string) (spec : RuleSpec world) (rest : RuleTree world)
               (wd : jsval) (errors : object) (w0 : world),
          runAttributes ((key, spec) :: rest) wd data errors w0
          = match validateFunction spec key wd data (propOf data key)
                    errors w0 with
            | (Resolved r, w1) => runAttributes rest wd data (snd r) w1
            | (Rejected e, w1) => (Rejected e, w1)
            end)
    /\ (forall (rules1 rules2 : list (Rule world)) (value d : jsval)
               (w0 : world),
          firstError (RSList (rules1 ++ rules2)) value d w0
          = match firstError (RSList rules1) value d w0 with
            | (Resolved error, w1) =>
                if isUndefined error
                then firstError (RSList rules2) value d w1
                else (Resolved error, w1)
            | (Rejected e, w1) => (Rejected e, w1)
            end).
Proof.
  intros world before after seed data w Hdata.
  split; [|split].
  - rewrite validate_unfold, collectErrors_runAttributes by exact Hdata.
    rewrite runAttributes_app.
    destruct (runAttributes before _ data [] w) as [[errors1|e] w1];
      reflexivity.
  - intros. apply runAttributes_cons.
  - intros. apply firstError_app.
Qed.

(** The nested tree of [car] is finished, rule after rule, before the rule
    of [deal] starts. *)
Lemma attributes_validated_in_series_witness :
  validate
    ([("car", RSTree [("make", RSList [logged "car.make 1" passing;
                                        logged "car.make 2" passing]);
                       ("model", RSRule (logged "car.model" passing))])]
     ++ [("deal", RSRule (logged "deal" isString))])%list
    VUndef testValues []
  = (Resolved VUndef, ["car.make 1"; "car.make 2"; "car.model"; "deal"]).
Proof.
  rewrite (proj1 (attributes_validated_in_series Log
    [("car", RSTree [("make", RSList [logged "car.make 1" passing;
                                       logged "car.make 2" passing]);
                      ("model", RSRule (logged "car.model" passing))])]
    [("deal", RSRule (logged "deal" isString))]
    VUndef testValues [] eq_refl)).
  reflexivity.
Defined.

(** C8 -- An attribute whose rules are a nested tree and whose value is not
    a plain object: the executor does not recurse (the world is left as it
    was, so no nested rule has run) and resolves with the message
    "Property <name> must be an object", but it does not pass the message
    to [storeErrors]: the errors object is left as it was, and a validator
    with this attribute alone resolves with [undefined]. *)
Theorem nested_tree_on_non_object_not_recorded :
  forall (world : Type) (key : string) (nested : RuleTree world)
         (seed data : jsval) (w : world),
    nullish data = false ->
    isPlainObject (propOf data key) = false ->
    (forall wd errors,
        validateFunction (RSTree nested) key wd data (propOf data key) errors w
        = (Resolved (mustBeAnObject key, errors), w))
    /\ validate [(key, RSTree nested)] seed data w = (Resolved VUndef, w).
Proof.
  intros world key nested seed data w Hdata Hplain.
  assert (Hexec : forall wd errors,
             validateFunction (RSTree nested) key wd data (propOf data key)
               errors w
             = (Resolved (mustBeAnObject key, errors), w)).
  { intros wd errors. rewrite validateFunction_tree, Hplain. reflexivity. }
  split; [exact Hexec|].
  rewrite validate_unfold, collectErrors_runAttributes by exact Hdata.
  rewrite runAttributes_cons, Hexec. reflexivity.
Qed.

(** [createValidator({ car: { make: isString } })] on
    [{ car: 'not-an-object' }] resolves with [undefined]. *)
Lemma nested_tree_on_non_object_not_recorded_witness :
  validate [("car", RSTree [("make", RSRule (logged "make" isString))])]
    VUndef (VObj [("car", VStr "not-an-object")]) []
  = (Resolved VUndef, []).
Proof.
  exact (proj2 (nested_tree_on_non_object_not_recorded Log "car"
                  [("make", RSRule (logged "make" isString))]
                  VUndef (VObj [("car", VStr "not-an-object")]) []
                  eq_refl eq_refl)).
Defined.

(** [when] and [msgFor] on the data of the repository's tests: the rule
    that needs [data.deal] passes in a tree nested directly and fails in
    the same tree under [when] and under [msgFor], and the rule that
    answers its [wholeData] answers the [car] object. *)
Lemma wholeData_on_test_data :
  validate [("deal", RSRule isString);
            ("car", RSTree [("make", RSRule needsDeal);
                            ("engine", RSTree [("cylinders", RSRule needsDeal)])])]
    VUndef testValues []
  = (Resolved VUndef, [])
  /\ validate [("deal", RSRule isString);
               ("car", RSRule (when (PValue (VBool true))
                                 (RSTree [("make", RSRule needsDeal)])))]
       VUndef testValues []
     = (Resolved (VObj [("car",
                         VObj [("make",
                                VStr "deal property was not available")])]),
        [])
  /\ validate [("deal", RSRule isString);
               ("car", RSRule (msgFor (RSTree [("make", RSRule needsDeal)])
                                 (VStr "Custom error message")))]
       VUndef testValues []
     = (Resolved (VObj [("car", VStr "Custom error message")]), [])
  /\ validate [("car", RSRule (when (PValue (VBool true))
                                 (RSTree [("make", RSRule echoData)])))]
       VUndef testValues []
     = (Resolved (VObj [("car", VObj [("make", propOf testValues "car")])]),
        []).
Proof.
  repeat split; reflexivity.
Qed.

(** C2 -- [when] and [msgFor] build the validator of a nested tree
    without [data] (a tree nested directly is validated with the
    [wholeData] of the validator around it, see
    [nested_tree_keeps_wholeData]): the validator takes the value it is
    called on as its baseline, and a rule of the tree is called with that
    value as second argument, whatever top-level object [data] the
    combinator was given. *)
Theorem when_msgFor_tree_lose_wholeData :
  forall (world : Type) (key : string) (rule : Rule world)
         (msg value data : jsval) (w : world),
    nullish value = false ->
    when (PValue (VBool true)) (RSTree [(key, RSRule rule)]) value data w
    = match rule (propOf value key) value w with
      | (Resolved out, w1) =>
          (Resolved (returnUndefinedOnSuccess (storeErrors key [] out)), w1)
      | (Rejected e, w1) => (Rejected e, w1)
      end
    /\ msgFor (RSTree [(key, RSRule rule)]) msg value data w
       = match rule (propOf value key) value w with
         | (Resolved out, w1) =>
             (Resolved (if isUndefined out then VUndef else msg), w1)
         | (Rejected e, w1) => (Rejected e, w1)
         end.
Proof.
  intros world key rule msg value data w Hvalue.
  assert (Hval : validate [(key, RSRule rule)] VUndef value w
                 = runValidator validateFunction [(key, RSRule rule)]
                     value value w) by reflexivity.
  rewrite runValidator_single_rule in Hval by exact Hvalue.
  split.
  - change (when (PValue (VBool true)) (RSTree [(key, RSRule rule)])
              value data w)
      with (validate [(key, RSRule rule)] VUndef value w).
    exact Hval.
  - unfold msgFor, bind. rewrite Hval.
    destruct (rule (propOf value key) value w) as [[out|e] w1];
      [|reflexivity].
    destruct out; try reflexivity.
    all: cbn [storeErrors containsError isUndefined negb setProp
              returnUndefinedOnSuccess List.length Nat.eqb]; reflexivity.
Qed.

(** The rule under [when] is called with the [car] object, not with the
    test data: it answers the [car] object. *)
Lemma when_msgFor_tree_lose_wholeData_witness :
  when (PValue (VBool true)) (RSTree [("make", RSRule echoData)])
    (VObj [("make", VStr "BMW")]) testValues []
  = (Resolved (VObj [("make", VObj [("make", VStr "BMW")])]), []).
Proof.
  exact (proj1 (when_msgFor_tree_lose_wholeData Log "make" echoData
                  VNull (VObj [("make", VStr "BMW")]) testValues []
                  eq_refl)).
Defined.

Lemma invokeAll_fixed :
  forall (world : Type) (datas : list jsval) (validator : Validator world),
    isEmpty (wholeData validator) = false ->
    wholeData (invokeAll validator datas) = wholeData validator
    /\ perAttributeRules (invokeAll validator datas)
       = perAttributeRules validator.
Proof.
  intros world datas.
  induction datas as [|data datas IH]; intros validator Hfull.
  - split; reflexivity.
  - change (invokeAll validator (data :: datas))
      with (invokeAll (fst (invoke validator data)) datas).
    assert (Hkeep : wholeData (fst (invoke validator data))
                    = wholeData validator).
    { simpl. unfold captureWholeData. now rewrite Hfull. }
    destruct (IH (fst (invoke validator data))) as [Hw Hr].
    + now rewrite Hkeep.
    + split; [now rewrite Hw | rewrite Hr; reflexivity].
Qed.

(** C9, amended -- Line 20 runs at every invocation: the call keeps the
    stored baseline when it is not empty (lodash [isEmpty]) and takes its
    own data argument otherwise, and the rules of the call receive that
    value.  So a validator built without a seed, or with an empty one, has
    its baseline fixed from the first invocation on only when the data of
    that invocation is not empty: then every later invocation, whatever
    its data, leaves the baseline as it is and runs its rules with it.
    After an invocation on empty data the next invocation captures its own
    data argument. *)
Theorem wholeData_fixed_once_non_empty :
  forall (world : Type) (tree : RuleTree world)
         (seed first : jsval) (later : list jsval) (data : jsval),
    isEmpty (defaultWholeData seed) = true ->
    (forall (validator : Validator world) (currentData : jsval),
        wholeData (fst (invoke validator currentData))
        = (if isEmpty (wholeData validator)
           then currentData else wholeData validator)
        /\ snd (invoke validator currentData)
           = runValidator validateFunction (perAttributeRules validator)
               (wholeData (fst (invoke validator currentData))) currentData)
    /\ wholeData (fst (invoke (createValidator tree seed) first)) = first
    /\ (isEmpty first = false ->
        wholeData
          (invokeAll (fst (invoke (createValidator tree seed) first)) later)
        = first
        /\ snd (invoke
                  (invokeAll (fst (invoke (createValidator tree seed) first))
                     later)
                  data)
           = runValidator validateFunction tree first data)
    /\ (isEmpty first = true ->
        wholeData
          (fst (invoke (fst (invoke (createValidator tree seed) first)) data))
        = data)
    /\ (forall (key : string) (rule : Rule world) (wd : jsval)
               (props : object) (w : world),
          runValidator validateFunction [(key, RSRule rule)] wd (VObj props) w
          = match rule (lookup key props) wd w with
            | (Resolved out, w1) =>
                (Resolved (returnUndefinedOnSuccess (storeErrors key [] out)),
                 w1)
            | (Rejected e, w1) => (Rejected e, w1)
            end).
Proof.
  intros world tree seed first later data Hseed.
  set (started := fst (invoke (createValidator tree seed) first)).
  assert (Hfirst : wholeData started = first).
  { subst started. simpl. unfold captureWholeData. now rewrite Hseed. }
  assert (Hrules : perAttributeRules started = tree) by reflexivity.
  split; [|split; [|split; [|split]]].
  - intros validator currentData. split; reflexivity.
  - exact Hfirst.
  - intro Hfull.
    destruct (invokeAll_fixed world later started) as [Hw Hr].
    { now rewrite Hfirst. }
    rewrite Hfirst in Hw. rewrite Hrules in Hr.
    split; [exact Hw|].
    unfold invoke. cbn [snd]. rewrite Hw, Hr.
    unfold captureWholeData. now rewrite Hfull.
  - intro Hempty. unfold invoke. cbn [fst wholeData].
    rewrite Hfirst. unfold captureWholeData. now rewrite Hempty.
  - intros key rule wd props w.
    exact (runValidator_single_rule key rule wd (VObj props) w eq_refl).
Qed.

(** Built without a seed and first called on the test data, the validator
    keeps the test data as baseline through two more calls, and the rule
    of a fourth call on other data answers the test data. *)
Lemma wholeData_fixed_once_non_empty_witness :
  wholeData
    (invokeAll
       (fst (invoke (createValidator [("a", RSRule echoData)] VUndef)
               testValues))
       [VObj []; VObj [("a", VNum 1)]])
  = testValues
  /\ snd (invoke
            (invokeAll
               (fst (invoke (createValidator [("a", RSRule echoData)] VUndef)
                       testValues))
               [VObj []; VObj [("a", VNum 1)]])
            (VObj [("a", VNum 2)]))
     = runValidator validateFunction [("a", RSRule echoData)] testValues
         (VObj [("a", VNum 2)]).
Proof.
  exact (proj1 (proj2 (proj2
    (wholeData_fixed_once_non_empty Log [("a", RSRule echoData)]
       VUndef testValues [VObj []; VObj [("a", VNum 1)]]
       (VObj [("a", VNum 2)]) eq_refl))) eq_refl).
Defined.

(** C9 as stated fails: the validator is first called on the empty
    object and then on [{a: 1}]; the baseline after the second call is
    [{a: 1}], not the object captured at the first call, and the rule of
    the second call answers [{a: 1}]. *)
Lemma wholeData_recaptured_after_empty_data :
  ~ (forall (tree : RuleTree Log) (first second : jsval),
        wholeData
          (fst (invoke (fst (invoke (createValidator tree VUndef) first))
                  second))
        = first
        /\ forall w : Log,
             snd (invoke (fst (invoke (createValidator tree VUndef) first))
                    second) w
             = runValidator validateFunction tree first second w).
Proof.
  intro H.
  destruct (H [("a", RSRule echoData)] (VObj []) (VObj [("a", VNum 1)]))
    as [Hbase _].
  discriminate Hbase.
Qed.

(** ** The shape of the error report *)

Section Reports.

Context {world : Type}.
Implicit Types (tree : RuleTree world) (spec : RuleSpec world) (w : world).

(** Induction on rule specifications, through the attributes of a tree. *)
Lemma RuleSpec_nested_ind (P : RuleSpec world -> Prop) :
  (forall rule, P (RSRule rule)) ->
  (forall rules, P (RSList rules)) ->
  (forall attrs, Forall (fun attr => P (snd attr)) attrs -> P (RSTree attrs)) ->
  forall spec, P spec.
Proof.
  intros Hrule Hlist Htree.
  fix IH 1. intros [rule|rules|attrs].
  - apply Hrule.
  - apply Hlist.
  - apply Htree.
    induction attrs as [|attr attrs IHattrs]; constructor.
    + apply IH.
    + exact IHattrs.
Qed.

Lemma Forall_setProp (Q : string * jsval -> Prop) key v (errors : object) :
  Q (key, v) -> Forall Q errors -> Forall Q (setProp key v errors).
Proof.
  intros Hnew Hall.
  induction Hall as [|[k x] errors Hhd Htl IH]; simpl.
  - constructor; [exact Hnew | constructor].
  - destruct (k =? key) eqn:E.
    + apply String.eqb_eq in E. subst k. constructor; assumption.
    + constructor; assumption.
Qed.

Lemma setProp_not_nil key v (errors : object) : setProp key v errors <> [].
Proof.
  destruct errors as [|[k x] errors]; simpl; [discriminate|].
  destruct (k =? key); discriminate.
Qed.

Lemma storeErrors_cases key errors validationResult :
  (validationResult = VUndef /\ storeErrors key errors validationResult = errors)
  \/ (validationResult <> VUndef
      /\ storeErrors key errors validationResult
         = setProp key validationResult errors).
Proof.
  destruct validationResult; [left; split; reflexivity | right ..];
    (split; [discriminate | reflexivity]).
Qed.

Lemma runAttributes_entries tree0 wd cur :
  forall tree,
    Forall (fun attr => storesEntry (snd attr)) tree ->
    incl tree tree0 ->
    forall errors w errors' w',
      Forall (entryIn tree0) errors ->
      runAttributes tree wd cur errors w = (Resolved errors', w') ->
      Forall (entryIn tree0) errors'.
Proof.
  induction tree as [|[key spec] tree IH];
    intros Hstores Hincl errors w errors' w' Hinv Hrun.
  - rewrite runAttributes_nil in Hrun. now inversion Hrun; subst.
  - rewrite runAttributes_cons in Hrun.
    inversion Hstores as [|? ? Hspec Hrest]; subst.
    destruct (validateFunction spec key wd cur (propOf cur key) errors w)
      as [[r|e] w1] eqn:Hexec; [|discriminate].
    apply (IH Hrest) in Hrun; [exact Hrun | |].
    + intros attr Hin. apply Hincl. now right.
    + destruct (Hspec _ _ _ _ _ _ _ _ Hexec) as [Hsame | [v [Hset [Hdef Hentry]]]].
      * now rewrite Hsame.
      * rewrite Hset. apply Forall_setProp; [|exact Hinv].
        split; [exact Hdef|]. exists spec. split; [|exact Hentry].
        apply Hincl. now left.
Qed.

Lemma validate_shape_if tree seed cur w r w' :
  Forall (fun attr => storesEntry (snd attr)) tree ->
  validate tree seed cur w = (Resolved r, w') ->
  exists errors,
    collectErrors validateFunction tree
      (captureWholeData (defaultWholeData seed) cur) cur w
    = (Resolved errors, w')
    /\ ((errors = [] /\ r = VUndef)
        \/ (errors <> [] /\ r = VObj errors /\ reportOf tree r)).
Proof.
  intros Hstores Hval. rewrite validate_unfold in Hval.
  destruct (collectErrors validateFunction tree _ cur w)
    as [[errors|e] w1] eqn:Hcollect; [|discriminate].
  inversion Hval; subst. exists errors. split; [reflexivity|].
  destruct errors as [|entry errors]; [left; split; reflexivity|].
  right. split; [discriminate|]. split; [reflexivity|].
  change (returnUndefinedOnSuccess (entry :: errors))
    with (VObj (entry :: errors)).
  constructor; [discriminate|].
  destruct (nullish cur) eqn:Hcur.
  - destruct tree as [|attr tree].
    + discriminate Hcollect.
    + destruct (collectErrors_nullish (attr :: tree)
                  (captureWholeData (defaultWholeData seed) cur) cur w Hcur)
        as [e He]; [discriminate|].
      rewrite He in Hcollect. discriminate.
  - rewrite collectErrors_runAttributes in Hcollect by exact Hcur.
    eapply (runAttributes_entries tree _ _ tree Hstores (incl_refl tree)
              [] w); [constructor | exact Hcollect].
Qed.

Lemma storesEntry_rules spec :
  (forall nested, spec <> RSTree nested) ->
  (forall message, entryOf spec message) ->
  storesEntry spec.
Proof.
  intros Hrules Hentry key wd cur dv errors r w w1 Hexec.
  rewrite validateFunction_rules in Hexec by exact Hrules.
  destruct (getProp cur key) as [v|e]; [|discriminate].
  destruct (firstError spec v wd w) as [[validationResult|e] w2];
    [|discriminate].
  inversion Hexec; subst; cbn [snd].
  destruct (storeErrors_cases key errors validationResult)
    as [[_ Hsame] | [Hdef Hset]].
  - left. exact Hsame.
  - right. exists validationResult. repeat split; [exact Hset | exact Hdef |].
    apply Hentry.
Qed.

Lemma validateFunction_storesEntry : forall spec, storesEntry spec.
Proof.
  induction spec as [rule|rules|attrs IH] using RuleSpec_nested_ind.
  1, 2: apply storesEntry_rules; [discriminate | constructor].
  intros key wd cur dv errors r w w1 Hexec.
  rewrite validateFunction_tree in Hexec.
  destruct (negb (isPlainObject dv)).
  - inversion Hexec; subst. now left.
  - destruct (validate attrs wd dv w) as [[validationResult|e] w2] eqn:Hval;
      [|discriminate].
    inversion Hexec; subst; cbn [snd].
    destruct (validate_shape_if _ _ _ _ _ _ IH Hval)
      as [found [_ [[_ Hundef] | [_ [Hobj Hreport]]]]].
    + subst validationResult. now left.
    + right. exists validationResult. repeat split.
      * rewrite Hobj. reflexivity.
      * rewrite Hobj. discriminate.
      * constructor. exact Hreport.
Qed.

Lemma validate_shape tree seed cur w r w' :
  validate tree seed cur w = (Resolved r, w') ->
  exists errors,
    collectErrors validateFunction tree
      (captureWholeData (defaultWholeData seed) cur) cur w
    = (Resolved errors, w')
    /\ ((errors = [] /\ r = VUndef)
        \/ (errors <> [] /\ r = VObj errors /\ reportOf tree r)).
Proof.
  apply validate_shape_if.
  apply Forall_forall. intros attr _. apply validateFunction_storesEntry.
Qed.

End Reports.

(** ** The validator resolves when its rules do *)

Section Resolves.

Context {world : Type}.
Implicit Types (tree : RuleTree world) (spec : RuleSpec world) (w : world).

Lemma firstError_resolves (rules : list (Rule world)) :
  Forall neverRejects rules ->
  forall value data w,
    exists out w', firstError (RSList rules) value data w = (Resolved out, w').
Proof.
  induction 1 as [|rule rules Hrule Hrules IH]; intros value data w.
  - eexists; eexists; reflexivity.
  - rewrite firstError_cons.
    destruct (Hrule value data w) as [out [w1 Hout]]. rewrite Hout.
    destruct (isUndefined out); [apply IH|].
    eexists; eexists; reflexivity.
Qed.

Lemma runAttributes_resolves wd cur :
  nullish cur = false ->
  forall tree,
    Forall (fun attr => executorResolves (snd attr)) tree ->
    forall errors w,
      exists errors' w',
        runAttributes tree wd cur errors w = (Resolved errors', w').
Proof.
  intros Hcur tree.
  induction 1 as [|[key spec] tree Hspec Hrest IH]; intros errors w.
  - rewrite runAttributes_nil. eexists; eexists; reflexivity.
  - rewrite runAttributes_cons.
    destruct (Hspec key wd cur (propOf cur key) errors w Hcur)
      as [r [w1 Hexec]].
    cbn [snd] in Hexec. rewrite Hexec. apply IH.
Qed.

Lemma validate_resolves_if tree seed cur w :
  nullish cur = false ->
  Forall (fun attr => executorResolves (snd attr)) tree ->
  exists r w', validate tree seed cur w = (Resolved r, w').
Proof.
  intros Hcur Hall.
  rewrite validate_unfold, collectErrors_runAttributes by exact Hcur.
  destruct (runAttributes_resolves
              (captureWholeData (defaultWholeData seed) cur) cur Hcur
              tree Hall [] w)
    as [errors [w1 Hrun]].
  rewrite Hrun. eexists; eexists; reflexivity.
Qed.

Lemma executorResolves_rules spec :
  (forall nested, spec <> RSTree nested) ->
  Forall neverRejects (castArray spec) ->
  executorResolves spec.
Proof.
  intros Hrules Hall key wd cur dv errors w Hcur.
  rewrite validateFunction_rules by exact Hrules.
  rewrite getProp_propOf by exact Hcur.
  assert (Hfirst : exists out w',
             firstError spec (propOf cur key) wd w = (Resolved out, w')).
  { destruct spec as [rule|rules|nested].
    - rewrite firstError_single. apply firstError_resolves, Hall.
    - apply firstError_resolves, Hall.
    - exfalso. exact (Hrules nested eq_refl). }
  destruct Hfirst as [out [w1 Hout]]. rewrite Hout.
  eexists; eexists; reflexivity.
Qed.

Lemma validateFunction_resolves :
  forall spec, ForallRules neverRejects spec -> executorResolves spec.
Proof.
  induction spec as [rule|rules|attrs IH] using RuleSpec_nested_ind;
    intro Hall; inversion Hall as [? Hrule|? Hrules|? Hattrs]; subst.
  - apply executorResolves_rules; [discriminate|].
    constructor; [exact Hrule | constructor].
  - apply executorResolves_rules; [discriminate | exact Hrules].
  - intros key wd cur dv errors w Hcur.
    rewrite validateFunction_tree.
    destruct dv; cbn [isPlainObject negb];
      try (eexists; eexists; reflexivity).
    destruct (validate_resolves_if attrs wd (VObj props) w eq_refl)
      as [r [w1 Hval]].
    + rewrite Forall_forall in *. intros attr Hin.
      apply IH; [exact Hin | apply Hattrs, Hin].
    + rewrite Hval. eexists; eexists; reflexivity.
Qed.

Lemma validate_resolves tree seed cur w :
  ForallRules neverRejects (RSTree tree) ->
  nullish cur = false ->
  exists r w', validate tree seed cur w = (Resolved r, w').
Proof.
  intros Hall Hcur. apply validate_resolves_if; [exact Hcur|].
  inversion Hall as [| |? Hattrs]; subst.
  rewrite Forall_forall in *. intros attr Hin.
  apply validateFunction_resolves, Hattrs, Hin.
Qed.

End Resolves.

(** ** Reports without an empty object *)

Section Clean.

Context {world : Type}.
Implicit Types (tree : RuleTree world) (spec : RuleSpec world) (w : world).

Lemma firstError_clean (rules : list (Rule world)) :
  Forall cleanRule rules ->
  forall value data w out w',
    firstError (RSList rules) value data w = (Resolved out, w') ->
    noEmptyObject out = true.
Proof.
  induction 1 as [|rule rules Hrule Hrules IH]; intros value data w out w' Hrun.
  - rewrite firstError_nil in Hrun. now inversion Hrun.
  - rewrite firstError_cons in Hrun.
    destruct (rule value data w) as [[error|e] w1] eqn:Hout; [|discriminate].
    destruct (isUndefined error).
    + exact (IH _ _ _ _ _ Hrun).
    + inversion Hrun; subst. exact (Hrule _ _ _ _ _ Hout).
Qed.

Lemma noEmptyObject_report (errors : object) :
  errors <> [] ->
  Forall (fun entry => noEmptyObject (snd entry) = true) errors ->
  noEmptyObject (VObj errors) = true.
Proof.
  intros Hne Hall. cbn [noEmptyObject].
  apply andb_true_intro. split.
  - destruct errors; [contradiction | reflexivity].
  - apply forallb_forall. rewrite Forall_forall in Hall. exact Hall.
Qed.

Lemma runAttributes_clean wd cur :
  forall tree,
    Forall (fun attr => cleanExecutor (snd attr)) tree ->
    forall errors w errors' w',
      runAttributes tree wd cur errors w = (Resolved errors', w') ->
      Forall (fun entry => noEmptyObject (snd entry) = true) errors ->
      Forall (fun entry => noEmptyObject (snd entry) = true) errors'.
Proof.
  induction 1 as [|[key spec] tree Hspec Hrest IH];
    intros errors w errors' w' Hrun Hclean.
  - rewrite runAttributes_nil in Hrun. now inversion Hrun; subst.
  - rewrite runAttributes_cons in Hrun.
    destruct (validateFunction spec key wd cur (propOf cur key) errors w)
      as [[r|e] w1] eqn:Hexec; [|discriminate].
    apply (IH _ _ _ _ Hrun). exact (Hspec _ _ _ _ _ _ _ _ Hexec Hclean).
Qed.

Lemma validate_clean_if tree seed cur w r w' :
  Forall (fun attr => cleanExecutor (snd attr)) tree ->
  validate tree seed cur w = (Resolved r, w') ->
  noEmptyObject r = true.
Proof.
  intros Hall Hval. rewrite validate_unfold in Hval.
  destruct (collectErrors validateFunction tree _ cur w)
    as [[errors|e] w1] eqn:Hcollect; [|discriminate].
  inversion Hval; subst.
  destruct errors as [|entry errors]; [reflexivity|].
  change (returnUndefinedOnSuccess (entry :: errors))
    with (VObj (entry :: errors)).
  apply noEmptyObject_report; [discriminate|].
  destruct (nullish cur) eqn:Hcur.
  - destruct tree as [|attr tree].
    + discriminate Hcollect.
    + destruct (collectErrors_nullish (attr :: tree)
                  (captureWholeData (defaultWholeData seed) cur) cur w Hcur)
        as [e He]; [discriminate|].
      rewrite He in Hcollect. discriminate.
  - rewrite collectErrors_runAttributes in Hcollect by exact Hcur.
    eapply runAttributes_clean; [exact Hall | exact Hcollect | constructor].
Qed.

Lemma storeErrors_clean key (errors : object) validationResult :
  noEmptyObject validationResult = true ->
  Forall (fun entry => noEmptyObject (snd entry) = true) errors ->
  Forall (fun entry => noEmptyObject (snd entry) = true)
    (storeErrors key errors validationResult).
Proof.
  intros Hres Hall.
  destruct (storeErrors_cases key errors validationResult)
    as [[_ Hsame] | [_ Hset]].
  - now rewrite Hsame.
  - rewrite Hset. apply Forall_setProp; assumption.
Qed.

Lemma cleanExecutor_rules spec :
  (forall nested, spec <> RSTree nested) ->
  Forall cleanRule (castArray spec) ->
  cleanExecutor spec.
Proof.
  intros Hrules Hall key wd cur dv errors r w w1 Hexec Hclean.
  rewrite validateFunction_rules in Hexec by exact Hrules.
  destruct (getProp cur key) as [v|e]; [|discriminate].
  destruct (firstError spec v wd w) as [[validationResult|e] w2] eqn:Hfirst;
    [|discriminate].
  inversion Hexec; subst; cbn [snd].
  apply storeErrors_clean; [|exact Hclean].
  destruct spec as [rule|rules|nested].
  - rewrite firstError_single in Hfirst.
    exact (firstError_clean _ Hall _ _ _ _ _ Hfirst).
  - exact (firstError_clean _ Hall _ _ _ _ _ Hfirst).
  - exfalso. exact (Hrules nested eq_refl).
Qed.

Lemma validateFunction_clean :
  forall spec, ForallRules cleanRule spec -> cleanExecutor spec.
Proof.
  induction spec as [rule|rules|attrs IH] using RuleSpec_nested_ind;
    intro Hall; inversion Hall as [? Hrule|? Hrules|? Hattrs]; subst.
  - apply cleanExecutor_rules; [discriminate|].
    constructor; [exact Hrule | constructor].
  - apply cleanExecutor_rules; [discriminate | exact Hrules].
  - intros key wd cur dv errors r w w1 Hexec Hclean.
    rewrite validateFunction_tree in Hexec.
    destruct (negb (isPlainObject dv)).
    + inversion Hexec; subst. exact Hclean.
    + destruct (validate attrs wd dv w) as [[validationResult|e] w2] eqn:Hval;
        [|discriminate].
      inversion Hexec; subst; cbn [snd].
      apply storeErrors_clean; [|exact Hclean].
      apply (validate_clean_if attrs wd dv w validationResult w1);
        [|exact Hval].
      rewrite Forall_forall in *. intros attr Hin.
      apply IH; [exact Hin | apply Hattrs, Hin].
Qed.

Lemma validate_clean tree seed cur w r w' :
  ForallRules cleanRule (RSTree tree) ->
  validate tree seed cur w = (Resolved r, w') ->
  noEmptyObject r = true.
Proof.
  intros Hall. apply validate_clean_if.
  inversion Hall as [| |? Hattrs]; subst.
  rewrite Forall_forall in *. intros attr Hin.
  apply validateFunction_clean, Hattrs, Hin.
Qed.

End Clean.

Lemma storeAll_nil (results : list (string * jsval)) :
  forall errors : object,
    storeAll results errors = []
    <-> errors = [] /\ Forall (fun result => snd result = VUndef) results.
Proof.
  induction results as [|[key result] results IH]; intro errors.
  - split; [intro H; split; [exact H | constructor] | intros [H _]; exact H].
  - change (storeAll ((key, result) :: results) errors)
      with (storeAll results (storeErrors key errors result)).
    rewrite IH. split.
    + intros [Hstore Hall].
      destruct (storeErrors_cases key errors result)
        as [[Hundef Hsame] | [_ Hset]].
      * rewrite Hsame in Hstore. split; [exact Hstore|].
        constructor; assumption.
      * rewrite Hset in Hstore. destruct (setProp_not_nil _ _ _ Hstore).
    + intros [Hnil Hall]. inversion Hall as [|? ? Hundef Hrest]; subst.
      cbn [snd] in Hundef. subst result. split; [reflexivity | exact Hrest].
Qed.

Lemma runAttributes_results :
  forall (world : Type) (wd cur : jsval) (tree : RuleTree world)
         (w w' : world) (results : list (string * jsval)),
    nullish cur = false ->
    attributeResults wd cur tree w results w' ->
    forall errors,
      runAttributes tree wd cur errors w
      = (Resolved (storeAll results errors), w').
Proof.
  intros world wd cur tree w w' results Hcur Hres.
  induction Hres
    as [w
       |key spec tree w w1 w2 result results Hrules Hfirst Hrest IH
       |key nested tree w w1 w2 result results Hplain Hval Hrest IH
       |key nested tree w w2 results Hplain Hrest IH];
    intro errors.
  - reflexivity.
  - rewrite runAttributes_cons, validateFunction_rules by exact Hrules.
    rewrite getProp_propOf by exact Hcur. rewrite Hfirst. apply IH.
  - rewrite runAttributes_cons, validateFunction_tree, Hplain.
    cbn [negb]. rewrite Hval. apply IH.
  - rewrite runAttributes_cons, validateFunction_tree, Hplain.
    cbn [negb snd]. apply IH.
Qed.

Lemma attributeResults_length :
  forall (world : Type) (wd cur : jsval) (tree : RuleTree world)
         (w w' : world) (results : list (string * jsval)),
    shapeMatches tree cur ->
    attributeResults wd cur tree w results w' ->
    List.length results = List.length tree.
Proof.
  intros world wd cur tree w w' results Hshape Hres.
  inversion Hshape as [? ? Hall]; subst. clear Hshape.
  induction Hres
    as [w
       |key spec tree w w1 w2 result results Hrules Hfirst Hrest IH
       |key nested tree w w1 w2 result results Hplain Hval Hrest IH
       |key nested tree w w2 results Hplain Hrest IH];
    [reflexivity | | |];
    inversion Hall as [|? ? Hattr Htail]; subst.
  - simpl. now rewrite (IH Htail).
  - simpl. now rewrite (IH Htail).
  - cbn [fst snd] in Hattr. inversion Hattr as [| |? ? Hobj _]; subst.
    rewrite Hobj in Hplain. discriminate.
Qed.

(** C1, amended -- Called on data that can be read, a validator whose
    rules all resolve does resolve.  Whenever it resolves, the errors
    object [errors] that the executors filled decides the result: with no
    key stored it is [undefined]; otherwise it is [errors] itself, an
    object with at least one key in which every entry is defined and the
    entry of every attribute with a nested tree is again a report with at
    least one key, at every depth ([reportOf]) --- a nested validation
    that stored no error leaves no key.  On data of the shape of the tree
    every attribute has a validation result, and the validator resolves
    with [undefined] exactly when every one of the results is [undefined].
    The message of a rule is stored as it is: when no rule of the tree
    answers a value that holds an empty object, no object anywhere in the
    result is empty. *)
Theorem validator_resolves_undefined_or_report :
  forall (world : Type) (tree : RuleTree world) (seed data : jsval)
         (w : world),
    (ForallRules neverRejects (RSTree tree) ->
     nullish data = false ->
     exists r w', validate tree seed data w = (Resolved r, w'))
    /\ (forall (r : jsval) (w' : world),
          validate tree seed data w = (Resolved r, w') ->
          exists errors,
            collectErrors validateFunction tree
              (captureWholeData (defaultWholeData seed) data) data w
            = (Resolved errors, w')
            /\ ((errors = [] /\ r = VUndef)
                \/ (errors <> [] /\ r = VObj errors /\ reportOf tree r)))
    /\ (forall (results : list (string * jsval)) (w' : world),
          nullish data = false ->
          shapeMatches tree data ->
          attributeResults (captureWholeData (defaultWholeData seed) data)
            data tree w results w' ->
          List.length results = List.length tree
          /\ validate tree seed data w
             = (Resolved (returnUndefinedOnSuccess (storeAll results [])), w')
          /\ (returnUndefinedOnSuccess (storeAll results []) = VUndef
              <-> Forall (fun result => snd result = VUndef) results))
    /\ (ForallRules cleanRule (RSTree tree) ->
        forall (r : jsval) (w' : world),
          validate tree seed data w = (Resolved r, w') ->
          noEmptyObject r = true).
Proof.
  intros world tree seed data w. split; [|split; [|split]];
    [| | | intros Hclean r w'; apply validate_clean; exact Hclean].
  - intros Hall Hdata. apply validate_resolves; assumption.
  - intros r w'. apply validate_shape.
  - intros results w' Hdata Hshape Hres. split; [|split].
    + exact (attributeResults_length _ _ _ _ _ _ _ Hshape Hres).
    + rewrite validate_unfold, collectErrors_runAttributes by exact Hdata.
      now rewrite (runAttributes_results _ _ _ _ _ _ _ Hdata Hres).
    + pose proof (storeAll_nil results []) as Hnil.
      destruct (storeAll results []) as [|entry errors].
      * split; [intros _; now apply Hnil | reflexivity].
      * split; [discriminate|].
        intro Hall. destruct Hnil as [_ Hnil].
        discriminate (Hnil (conj eq_refl Hall)).
Qed.

(** On the test data, which has the shape of [reportTree], the three
    attributes have the results below; [owner] and [car.make] leave no
    key. *)
Lemma validator_resolves_undefined_or_report_witness :
  validate reportTree VUndef testValues []
  = (Resolved
       (VObj [("deal", VStr "Some error");
              ("car", VObj [("engine",
                             VObj [("cylinders", VStr "Some error")])])]),
     []).
Proof.
  refine (proj1 (proj2 (proj1 (proj2 (proj2
            (validator_resolves_undefined_or_report Log reportTree
               VUndef testValues [])))
            [("deal", VStr "Some error");
             ("car", VObj [("engine",
                            VObj [("cylinders", VStr "Some error")])]);
             ("owner", VUndef)]
            [] eq_refl _ _))).
  - repeat constructor.
  - eapply attributeResults_rules; [discriminate | reflexivity |].
    eapply attributeResults_nested; [reflexivity | reflexivity |].
    eapply attributeResults_nested; [reflexivity | reflexivity |].
    constructor.
Defined.

(** C1 as stated fails: the rule of [a] fails with the empty object as
    its message; the message is stored as it is, and the report
    [{a: {}}] holds an empty object. *)
Lemma report_holds_empty_message :
  ~ (forall (tree : RuleTree Log) (data r : jsval) (w w' : Log),
        validate tree VUndef data w = (Resolved r, w') ->
        noEmptyObject r = true).
Proof.
  intro H.
  specialize (H [("a", RSRule (answering (VObj [])))]
                (VObj [("a", VNum 1)]) (VObj [("a", VObj [])]) [] []
                eq_refl).
  discriminate H.
Qed.

(** ** Claims about the combinators *)



(** C7 -- [msgFor] runs its rules, a plain object by a validator built for
    it and called on the value, anything else by [firstError]; when that
    run resolves, [msgFor] resolves in the same world with the message it
    was given if the result is defined, whatever the result is, and with
    [undefined] if it is not.  The result of a validator is defined
    exactly when it is a report with at least one key. *)
Theorem msgFor_replaces_any_error :
  forall (world : Type) (rules : RuleSpec world) (msg value data : jsval)
         (w w1 : world) (validationResult : jsval),
    match rules with
    | RSTree tree => snd (invoke (createValidator tree VUndef) value) w
    | _ => firstError rules value data w
    end = (Resolved validationResult, w1) ->
    msgFor rules msg value data w
    = (Resolved (if isUndefined validationResult then VUndef else msg), w1)
    /\ (forall tree, rules = RSTree tree ->
          validationResult = VUndef
          \/ exists errors,
               errors <> [] /\ validationResult = VObj errors).
Proof.
  intros world rules msg value data w w1 validationResult Hrun.
  split.
  - unfold msgFor, bind.
    destruct rules as [rule|list|tree];
      [ rewrite firstError_single in Hrun;
        change (castArray (RSRule rule)) with [rule]
      | change (castArray (RSList list)) with list
      | fold (validate tree VUndef value) in Hrun ];
      rewrite Hrun; destruct validationResult; reflexivity.
  - intros tree ->. fold (validate tree VUndef value) in Hrun.
    destruct (validate_shape _ _ _ _ _ _ Hrun)
      as [errors [_ [[_ Hundef] | [Hne [Hobj _]]]]].
    + now left.
    + right. exists errors. split; assumption.
Qed.

(** The repository's tests: a failing rule, and a nested object with a
    failing rule, both answered by the custom message. *)
Lemma msgFor_replaces_any_error_witness :
  msgFor (RSTree [("make", RSRule (failing "Some error"))])
    (VStr "Custom error message") (VObj []) (VObj [("car", VObj [])]) []
  = (Resolved (VStr "Custom error message"), []).
Proof.
  exact (proj1 (msgFor_replaces_any_error Log
                  (RSTree [("make", RSRule (failing "Some error"))])
                  (VStr "Custom error message") (VObj [])
                  (VObj [("car", VObj [])]) [] []
                  (VObj [("make", VStr "Some error")]) eq_refl)).
Defined.

(** * Further properties *)

(** ** Rejections in the rule runners *)

Lemma allErrors_rejects_at :
  forall (world : Type) (value data : jsval)
         (before : list (Rule world)) (rule : Rule world)
         (after : list (Rule world)) (w w1 w2 : world)
         (outs : list jsval) (e : jsval),
    runsAll value data before w outs w1 ->
    rule value data w1 = (Rejected e, w2) ->
    allErrors (RSList (before ++ rule :: after)) value data w
    = (Rejected e, w2).
Proof.
  intros world value data before rule after w w1 w2 outs e Hruns Hrule.
  rewrite allErrors_unfold, fold_left_app, allErrors_chain.
  rewrite (allErrors_from _ _ _ _ _ _ [] Hruns).
  cbn [fold_left]. rewrite allErrors_chain.
  change (allErrorsStep value data (ret (fold_left concat outs [])) rule w1)
    with (bind (rule value data)
            (fun r => ret (concat (fold_left concat outs []) r)) w1).
  unfold bind at 1. rewrite Hrule. reflexivity.
Qed.

(** X1 -- A rule of [firstError] that rejects, the rules before it having
    passed: [firstError] rejects with the reason of the rule, in the world
    the rule left; the rules after it are not called. *)
Theorem firstError_rejects_with_rule :
  forall (world : Type) (value data : jsval)
         (before : list (Rule world)) (rule : Rule world)
         (after : list (Rule world)) (w w1 w2 : world)
         (outs : list jsval) (e : jsval),
    runsAll value data before w outs w1 ->
    Forall (fun out => out = VUndef) outs ->
    rule value data w1 = (Rejected e, w2) ->
    firstError (RSList (before ++ rule :: after)) value data w
    = (Rejected e, w2).
Proof.
  intros world value data before rule after w w1 w2 outs e Hruns Hall Hrule.
  rewrite (firstError_passes _ _ _ (rule :: after) _ _ _ Hruns Hall).
  rewrite firstError_cons, Hrule. reflexivity.
Qed.

Lemma firstError_rejects_with_rule_witness :
  firstError
    (RSList ([logged "first" passing]
             ++ logged "second" (rejecting "database down")
             :: [logged "third" (failing "Some error")]))
    VNull VNull []
  = (Rejected (VStr "database down"), ["first"; "second"]).
Proof.
  refine (firstError_rejects_with_rule Log VNull VNull
            [logged "first" passing]
            (logged "second" (rejecting "database down"))
            [logged "third" (failing "Some error")]
            [] ["first"] ["first"; "second"] [VUndef]
            (VStr "database down") _ _ _).
  - econstructor; [reflexivity | constructor].
  - repeat constructor.
  - reflexivity.
Defined.

(** X2 -- A rule of [allErrors] or of [oneOfRules] that rejects, whatever
    the rules before it resolved with: the runner rejects with the reason
    of the rule, in the world the rule left; the results collected so far
    are dropped and the rules after it are not called. *)
Theorem allErrors_oneOfRules_reject_with_rule :
  forall (world : Type) (value data : jsval)
         (before : list (Rule world)) (rule : Rule world)
         (after : list (Rule world)) (w w1 w2 : world)
         (outs : list jsval) (e : jsval),
    runsAll value data before w outs w1 ->
    rule value data w1 = (Rejected e, w2) ->
    allErrors (RSList (before ++ rule :: after)) value data w
    = (Rejected e, w2)
    /\ oneOfRules (RSList (before ++ rule :: after)) value data w
       = (Rejected e, w2).
Proof.
  intros world value data before rule after w w1 w2 outs e Hruns Hrule.
  pose proof (allErrors_rejects_at world value data before rule after
                w w1 w2 outs e Hruns Hrule) as Hall.
  split; [exact Hall|].
  unfold oneOfRules. cbn [castArray]. unfold bind at 1. rewrite Hall.
  reflexivity.
Qed.

Lemma allErrors_oneOfRules_reject_with_rule_witness :
  oneOfRules
    (RSList ([logged "first" (failing "Some error")]
             ++ logged "second" (rejecting "database down")
             :: [logged "third" passing]))
    VNull VNull []
  = (Rejected (VStr "database down"), ["first"; "second"]).
Proof.
  refine (proj2 (allErrors_oneOfRules_reject_with_rule Log VNull VNull
            [logged "first" (failing "Some error")]
            (logged "second" (rejecting "database down"))
            [logged "third" passing]
            [] ["first"] ["first"; "second"] [VStr "Some error"]
            (VStr "database down") _ _)).
  - econstructor; [reflexivity | constructor].
  - reflexivity.
Defined.

(** ** How the rule runners compose *)

(** X3 -- A [firstError] used as a rule of a [firstError] can be written
    out: the list with the rule [firstError(inner)] in front behaves as
    the list that starts with the rules of [inner]. *)
Theorem firstError_of_firstError :
  forall (world : Type) (inner rest : list (Rule world))
         (value data : jsval) (w : world),
    firstError (RSList (firstError (RSList inner) :: rest)) value data w
    = firstError (RSList (inner ++ rest)) value data w.
Proof.
  intros world inner rest value data w.
  rewrite firstError_cons, firstError_app. reflexivity.
Qed.



(** ** The combinators, nested and on rejections *)

Lemma msgFor_outcome :
  forall (world : Type) (rules : RuleSpec world) (msg value data : jsval)
         (w : world),
    msgFor rules msg value data w
    = match
        match rules with
        | RSTree tree => validate tree VUndef value w
        | _ => firstError (RSList (castArray rules)) value data w
        end
      with
      | (Resolved validationResult, w1) =>
          (Resolved (if containsError validationResult then msg else VUndef),
           w1)
      | (Rejected e, w1) => (Rejected e, w1)
      end.
Proof. intros world [rule|rules|tree] msg value data w; reflexivity. Qed.

(** X5 -- [msgFor] around [msgFor]: with an inner message that is not
    [undefined], the rule [msgFor(msgFor(rules, inner), outer)] behaves
    as [msgFor(rules, outer)]; the outer message is the one reported. *)
Theorem msgFor_of_msgFor :
  forall (world : Type) (rules : RuleSpec world)
         (inner outer value data : jsval) (w : world),
    inner <> VUndef ->
    msgFor (RSRule (msgFor rules inner)) outer value data w
    = msgFor rules outer value data w.
Proof.
  intros world rules inner outer value data w Hinner.
  rewrite (msgFor_outcome world (RSRule (msgFor rules inner))).
  cbn [castArray]. rewrite firstError_cons.
  rewrite (msgFor_outcome world rules inner), (msgFor_outcome world rules outer).
  destruct (match rules with
            | RSTree tree => validate tree VUndef value w
            | _ => firstError (RSList (castArray rules)) value data w
            end) as [[validationResult|e] w1]; [|reflexivity].
  destruct (containsError validationResult).
  - destruct inner; try contradiction; reflexivity.
  - reflexivity.
Qed.

Lemma msgFor_of_msgFor_witness :
  msgFor (RSRule (msgFor (RSList [logged "rule" (failing "Some error")])
                    (VStr "inner message")))
    (VStr "outer message") VNull VNull []
  = (Resolved (VStr "outer message"), ["rule"]).
Proof.
  rewrite (msgFor_of_msgFor Log
             (RSList [logged "rule" (failing "Some error")])
             (VStr "inner message") (VStr "outer message") VNull VNull []).
  - reflexivity.
  - discriminate.
Defined.

(** X6 -- The combinators recover no rejection.  When the predicate of
    [when] rejects, [when] rejects with its reason and the rules are not
    evaluated; when the run behind [msgFor] rejects (the nested validator
    for a plain object, [firstError] otherwise), [msgFor] rejects with its
    reason: the message stands in for errors, not for rejections. *)
Theorem combinators_keep_rejections :
  forall (world : Type) (predicate : Predicate world) (rules : RuleSpec world)
         (msg value data : jsval) (w w1 : world) (e : jsval),
    (evalPredicate predicate value data w = (Rejected e, w1) ->
     when predicate rules value data w = (Rejected e, w1))
    /\ (match rules with
        | RSTree tree => snd (invoke (createValidator tree VUndef) value) w
        | _ => firstError rules value data w
        end = (Rejected e, w1) ->
        msgFor rules msg value data w = (Rejected e, w1)).
Proof.
  intros world predicate rules msg value data w w1 e. split.
  - intro Hpred. unfold when, bind. cbn [ret]. rewrite Hpred. reflexivity.
  - intro Hrun. rewrite msgFor_outcome.
    destruct rules as [rule|list|tree];
      [ rewrite firstError_single in Hrun;
        change (castArray (RSRule rule)) with [rule]
      | change (castArray (RSList list)) with list
      | fold (validate tree VUndef value) in Hrun ];
      rewrite Hrun; reflexivity.
Qed.

Lemma combinators_keep_rejections_witness :
  msgFor (RSList [logged "first" passing;
                  logged "second" (rejecting "database down")])
    (VStr "Custom error message") VNull VNull []
  = (Rejected (VStr "database down"), ["first"; "second"]).
Proof.
  exact (proj2 (combinators_keep_rejections Log (PValue VNull)
                  (RSList [logged "first" passing;
                           logged "second" (rejecting "database down")])
                  (VStr "Custom error message") VNull VNull
                  [] ["first"; "second"] (VStr "database down"))
           eq_refl).
Defined.

(** ** Data that cannot be read *)

Lemma validate_nullish :
  forall (world : Type) (tree : RuleTree world) (seed cur : jsval) (w : world),
    nullish cur = true ->
    tree <> [] ->
    validate tree seed cur w
    = (Rejected (TypeError "Cannot read properties of undefined or null"), w).
Proof.
  intros world tree seed cur w Hcur Htree.
  destruct tree as [|[key spec] tree]; [contradiction|].
  destruct cur; try discriminate; reflexivity.
Qed.

(** X7 -- A validator with at least one attribute, called on [undefined]
    or [null], throws when it reads the first attribute: it rejects
    before any rule has run.  [when] (with a truthy predicate) and
    [msgFor] do not look at the value before they hand it to the validator
    of a plain object of rules, so they reject on such a value, and with
    them the validation of an attribute that is absent from the data. *)
Theorem unreadable_data_rejects :
  forall (world : Type) (tree : RuleTree world) (seed data msg other : jsval)
         (key : string) (w : world),
    tree <> [] ->
    (nullish data = true ->
     validate tree seed data w
     = (Rejected (TypeError "Cannot read properties of undefined or null"), w)
     /\ when (PValue (VBool true)) (RSTree tree) data other w
        = (Rejected (TypeError "Cannot read properties of undefined or null"),
           w)
     /\ msgFor (RSTree tree) msg data other w
        = (Rejected (TypeError "Cannot read properties of undefined or null"),
           w))
    /\ (nullish data = false ->
        nullish (propOf data key) = true ->
        validate [(key, RSRule (when (PValue (VBool true)) (RSTree tree)))]
          seed data w
        = (Rejected (TypeError "Cannot read properties of undefined or null"),
           w)
        /\ validate [(key, RSRule (msgFor (RSTree tree) msg))] seed data w
           = (Rejected
                (TypeError "Cannot read properties of undefined or null"), w)).
Proof.
  intros world tree seed data msg other key w Htree. split.
  - intro Hdata.
    pose proof (validate_nullish world tree VUndef data w Hdata Htree) as Hval.
    split; [exact (validate_nullish world tree seed data w Hdata Htree)|].
    split.
    + change (when (PValue (VBool true)) (RSTree tree) data other w)
        with (validate tree VUndef data w).
      exact Hval.
    + rewrite msgFor_outcome, Hval. reflexivity.
  - intros Hdata Habsent.
    pose proof (validate_nullish world tree VUndef (propOf data key) w
                  Habsent Htree) as Hval.
    split.
    + unfold validate, invoke, createValidator.
      cbn [snd wholeData perAttributeRules].
      rewrite runValidator_single_rule by exact Hdata.
      change (when (PValue (VBool true)) (RSTree tree) (propOf data key)
                (captureWholeData (defaultWholeData seed) data) w)
        with (validate tree VUndef (propOf data key) w).
      now rewrite Hval.
    + unfold validate at 1, invoke, createValidator.
      cbn [snd wholeData perAttributeRules].
      rewrite runValidator_single_rule by exact Hdata.
      rewrite msgFor_outcome, Hval. reflexivity.
Qed.

(** [createValidator({ car: when(true, { make: rule }) })] on the empty
    object rejects; the rule is not called. *)
Lemma unreadable_data_rejects_witness :
  validate [("car", RSRule (when (PValue (VBool true))
                              (RSTree [("make",
                                        RSRule (logged "make" passing))])))]
    VUndef (VObj []) []
  = (Rejected (TypeError "Cannot read properties of undefined or null"), []).
Proof.
  exact (proj1 (proj2 (unreadable_data_rejects Log
                  [("make", RSRule (logged "make" passing))]
                  VUndef (VObj []) VNull VNull "car" [] ltac:(discriminate))
           eq_refl eq_refl)).
Defined.

(** ** What a call of the validator depends on *)

Lemma validateFunction_same_attribute :
  forall (world : Type) (spec : RuleSpec world) (key : string)
         (wd cur1 cur2 : jsval) (errors : object) (w : world),
    nullish cur1 = false ->
    nullish cur2 = false ->
    propOf cur1 key = propOf cur2 key ->
    validateFunction spec key wd cur1 (propOf cur1 key) errors w
    = validateFunction spec key wd cur2 (propOf cur2 key) errors w.
Proof.
  intros world spec key wd cur1 cur2 errors w H1 H2 Hsame.
  destruct spec as [rule|rules|nested].
  1, 2: rewrite !validateFunction_rules by discriminate;
        rewrite (getProp_propOf cur1 key H1), (getProp_propOf cur2 key H2);
        now rewrite Hsame.
  rewrite !validateFunction_tree. now rewrite Hsame.
Qed.

Lemma runAttributes_same_attributes :
  forall (world : Type) (wd cur1 cur2 : jsval),
    nullish cur1 = false ->
    nullish cur2 = false ->
    forall tree : RuleTree world,
      (forall key spec, In (key, spec) tree ->
                        propOf cur1 key = propOf cur2 key) ->
      forall (errors : object) (w : world),
        runAttributes tree wd cur1 errors w
        = runAttributes tree wd cur2 errors w.
Proof.
  intros world wd cur1 cur2 H1 H2 tree.
  induction tree as [|[key spec] tree IH]; intros Hsame errors w.
  - reflexivity.
  - rewrite !runAttributes_cons.
    rewrite (validateFunction_same_attribute world spec key wd cur1 cur2
               errors w H1 H2 (Hsame key spec (or_introl eq_refl))).
    destruct (validateFunction spec key wd cur2 (propOf cur2 key) errors w)
      as [[r|e] w1]; [|reflexivity].
    apply IH. intros k s Hin. apply (Hsame k s). now right.
Qed.

(** X8 -- Keys of the data that the tree does not declare are ignored:
    a validator whose baseline is set (a seed that is not empty, or an
    earlier call on data that is not empty) behaves the same on two data
    objects that agree on every attribute of its tree. *)
Theorem undeclared_keys_ignored :
  forall (world : Type) (validator : Validator world) (data1 data2 : jsval)
         (w : world),
    isEmpty (wholeData validator) = false ->
    nullish data1 = false ->
    nullish data2 = false ->
    (forall key spec, In (key, spec) (perAttributeRules validator) ->
                      propOf data1 key = propOf data2 key) ->
    snd (invoke validator data1) w = snd (invoke validator data2) w.
Proof.
  intros world validator data1 data2 w Hset H1 H2 Hsame.
  unfold invoke. cbn [snd]. unfold captureWholeData. rewrite Hset.
  unfold runValidator, bind.
  rewrite !collectErrors_runAttributes by assumption.
  now rewrite (runAttributes_same_attributes world (wholeData validator)
                 data1 data2 H1 H2 (perAttributeRules validator) Hsame [] w).
Qed.

Lemma undeclared_keys_ignored_witness :
  snd (invoke (createValidator [("deal", RSRule (logged "deal" isString))]
                 testValues)
         (VObj [("deal", VNum 5); ("note", VStr "not declared")])) []
  = snd (invoke (createValidator [("deal", RSRule (logged "deal" isString))]
                   testValues)
           (VObj [("deal", VNum 5)])) [].
Proof.
  apply (undeclared_keys_ignored Log
           (createValidator [("deal", RSRule (logged "deal" isString))]
              testValues)
           (VObj [("deal", VNum 5); ("note", VStr "not declared")])
           (VObj [("deal", VNum 5)]) []);
    try reflexivity.
  intros key spec [Hin|[]]. injection Hin as <- _. reflexivity.
Defined.

(** ** The entries of the report *)

Lemma setProp_fresh (key : string) (v : jsval) (errors : object) :
  ~ In key (map fst errors) ->
  setProp key v errors = (errors ++ [(key, v)])%list.
Proof.
  induction errors as [|[k x] errors IH]; intro Hfresh; simpl.
  - reflexivity.
  - destruct (k =? key) eqn:E.
    + apply String.eqb_eq in E. exfalso. apply Hfresh. now left.
    + rewrite IH; [reflexivity|]. intro Hin. apply Hfresh. now right.
Qed.

Lemma storeAll_fresh (results : list (string * jsval)) :
  NoDup (map fst results) ->
  forall errors : object,
    (forall k, In k (map fst results) -> ~ In k (map fst errors)) ->
    storeAll results errors
    = (errors ++ filter (fun result => containsError (snd result)) results)%list.
Proof.
  induction results as [|[key result] results IH];
    intros Hnodup errors Hfresh.
  - simpl. now rewrite app_nil_r.
  - inversion Hnodup as [|? ? Hnotin Hrest]; subst.
    change (storeAll ((key, result) :: results) errors)
      with (storeAll results (storeErrors key errors result)).
    cbn [filter snd].
    destruct (storeErrors_cases key errors result)
      as [[Hundef Hsame] | [Hdef Hset]].
    + subst result. rewrite Hsame. cbn [containsError isUndefined negb].
      apply (IH Hrest). intros k Hin. apply Hfresh. now right.
    + rewrite Hset.
      assert (Hc : containsError result = true)
        by (destruct result; try reflexivity; contradiction).
      rewrite Hc, setProp_fresh by (apply Hfresh; now left).
      rewrite (IH Hrest).
      * now rewrite <- app_assoc.
      * intros k Hin Hink. rewrite map_app in Hink.
        apply in_app_or in Hink. destruct Hink as [Hink|[Hink|[]]].
        -- apply (Hfresh k); [now right | exact Hink].
        -- cbn [fst] in Hink. subst k. exact (Hnotin Hin).
Qed.

Lemma attributeResults_keys :
  forall (world : Type) (wd cur : jsval) (tree : RuleTree world)
         (w w' : world) (results : list (string * jsval)),
    attributeResults wd cur tree w results w' ->
    (forall k, In k (map fst results) -> In k (map fst tree))
    /\ (NoDup (map fst tree) -> NoDup (map fst results)).
Proof.
  intros world wd cur tree w w' results Hres.
  induction Hres
    as [w
       |key spec tree w w1 w2 result results Hrules Hfirst Hrest [IHin IHnd]
       |key nested tree w w1 w2 result results Hplain Hval Hrest [IHin IHnd]
       |key nested tree w w2 results Hplain Hrest [IHin IHnd]].
  - split; [intros k [] | intros _; constructor].
  - split.
    + intros k [Hk|Hk]; [now left | right; now apply IHin].
    + intro Hnd. inversion Hnd as [|? ? Hnotin Hnd']; subst.
      constructor; [|now apply IHnd].
      intro Hin. apply Hnotin. now apply IHin.
  - split.
    + intros k [Hk|Hk]; [now left | right; now apply IHin].
    + intro Hnd. inversion Hnd as [|? ? Hnotin Hnd']; subst.
      constructor; [|now apply IHnd].
      intro Hin. apply Hnotin. now apply IHin.
  - split.
    + intros k Hk. right. now apply IHin.
    + intro Hnd. inversion Hnd as [|? ? Hnotin Hnd']; subst. now apply IHnd.
Qed.

(** X9 -- In a tree that declares no attribute twice, the report is the
    list of the validation results that are not [undefined], each under
    the name of its attribute and in the order of the attributes; an
    attribute whose result is [undefined] has no key. *)
Theorem report_lists_defined_results :
  forall (world : Type) (tree : RuleTree world) (seed data : jsval)
         (w w' : world) (results : list (string * jsval)),
    nullish data = false ->
    NoDup (map fst tree) ->
    attributeResults (captureWholeData (defaultWholeData seed) data)
      data tree w results w' ->
    validate tree seed data w
    = (Resolved
         (returnUndefinedOnSuccess
            (filter (fun result => containsError (snd result)) results)),
       w').
Proof.
  intros world tree seed data w w' results Hdata Hnodup Hres.
  rewrite validate_unfold, collectErrors_runAttributes by exact Hdata.
  rewrite (runAttributes_results _ _ _ _ _ _ _ Hdata Hres).
  destruct (attributeResults_keys _ _ _ _ _ _ _ Hres) as [_ Hnd].
  rewrite (storeAll_fresh results (Hnd Hnodup) []); [reflexivity|].
  intros k _ [].
Qed.

Lemma report_lists_defined_results_witness :
  validate
    [("deal", RSList [isString; failing "Some error"]);
     ("owner", RSTree [("name", RSRule isString)]);
     ("car", RSRule (failing "No cars"))]
    VUndef testValues []
  = (Resolved (VObj [("deal", VStr "Some error"); ("car", VStr "No cars")]),
     []).
Proof.
  refine (report_lists_defined_results Log
            [("deal", RSList [isString; failing "Some error"]);
             ("owner", RSTree [("name", RSRule isString)]);
             ("car", RSRule (failing "No cars"))]
            VUndef testValues [] []
            [("deal", VStr "Some error"); ("owner", VUndef);
             ("car", VStr "No cars")]
            eq_refl _ _).
  - repeat constructor; simpl; intuition discriminate.
  - eapply attributeResults_rules; [discriminate | reflexivity |].
    eapply attributeResults_nested; [reflexivity | reflexivity |].
    eapply attributeResults_rules; [discriminate | reflexivity |].
    constructor.
Defined.

(** ** [wholeData] down a tree nested directly *)

Lemma runValidator_single_tree :
  forall (world : Type) (key : string) (nested : RuleTree world)
         (wd cur : jsval) (w : world),
    nullish cur = false ->
    isEmpty wd = false ->
    isPlainObject (propOf cur key) = true ->
    runValidator validateFunction [(key, RSTree nested)] wd cur w
    = match runValidator validateFunction nested wd (propOf cur key) w with
      | (Resolved r, w1) =>
          (Resolved (returnUndefinedOnSuccess (storeErrors key [] r)), w1)
      | (Rejected e, w1) => (Rejected e, w1)
      end.
Proof.
  intros world key nested wd cur w Hcur Hwd Hplain.
  unfold runValidator at 1. unfold bind at 1.
  rewrite collectErrors_runAttributes by exact Hcur.
  rewrite runAttributes_cons.
  rewrite nested_tree_keeps_wholeData by assumption.
  destruct (runValidator validateFunction nested wd (propOf cur key) w)
    as [[r|e] w1]; reflexivity.
Qed.

Lemma plain_object_not_nullish (x : jsval) :
  isPlainObject x = true -> nullish x = false.
Proof. destruct x; try discriminate; reflexivity. Qed.

Lemma runValidator_nestAt :
  forall (world : Type) (rule : Rule world) (wd : jsval) (path : list string)
         (key : string) (cur : jsval) (w : world),
    isEmpty wd = false ->
    nullish cur = false ->
    objectsAlong cur key path = true ->
    runValidator validateFunction (nestAt key path rule) wd cur w
    = match rule (valueAt cur key path) wd w with
      | (Resolved out, w1) => (Resolved (reportAt key path out), w1)
      | (Rejected e, w1) => (Rejected e, w1)
      end.
Proof.
  intros world rule wd path.
  induction path as [|next rest IH]; intros key cur w Hwd Hcur Hpath.
  - cbn [nestAt valueAt reportAt].
    exact (runValidator_single_rule key rule wd cur w Hcur).
  - cbn [objectsAlong] in Hpath. apply andb_prop in Hpath.
    destruct Hpath as [Hplain Hrest].
    cbn [nestAt valueAt reportAt].
    rewrite runValidator_single_tree by assumption.
    rewrite (IH next (propOf cur key) w Hwd
               (plain_object_not_nullish _ Hplain) Hrest).
    destruct (rule (valueAt (propOf cur key) next rest) wd w)
      as [[out|e] w1]; reflexivity.
Qed.

(** X10 -- A rule at any depth of trees nested directly, under a validator
    built without a seed: when the data holds a plain object at every
    level above the rule, the rule is called once, on the value found
    down the path and on the data object the validator was called on; the
    validator resolves with the rule's message wrapped in one report for
    each level, or with [undefined] when the rule passes. *)
Theorem nested_rule_receives_top_level_data :
  forall (world : Type) (rule : Rule world) (key : string)
         (path : list string) (data : jsval) (w : world),
    nullish data = false ->
    objectsAlong data key path = true ->
    validate (nestAt key path rule) VUndef data w
    = match rule (valueAt data key path) data w with
      | (Resolved out, w1) => (Resolved (reportAt key path out), w1)
      | (Rejected e, w1) => (Rejected e, w1)
      end.
Proof.
  intros world rule key path data w Hdata Hpath.
  change (validate (nestAt key path rule) VUndef data w)
    with (runValidator validateFunction (nestAt key path rule) data data w).
  destruct path as [|next rest].
  - exact (runValidator_single_rule key rule data data w Hdata).
  - apply runValidator_nestAt; [|exact Hdata | exact Hpath].
    cbn [objectsAlong] in Hpath. apply andb_prop in Hpath.
    exact (object_attribute_non_empty data key (proj1 Hpath)).
Qed.

(** The rule under [car.engine.cylinders] answers the whole test data. *)
Lemma nested_rule_receives_top_level_data_witness :
  validate (nestAt "car" ["engine"; "cylinders"] echoData) VUndef testValues []
  = (Resolved
       (VObj [("car", VObj [("engine", VObj [("cylinders", testValues)])])]),
     []).
Proof.
  exact (nested_rule_receives_top_level_data Log echoData "car"
           ["engine"; "cylinders"] testValues [] eq_refl eq_refl).
Defined.

(** X11 -- A validator built with a seed that is not empty keeps the seed
    as [wholeData] for its lifetime: after any number of calls the
    baseline is the seed, every call runs its rules with the seed, and a
    rule is called on the attribute's value and the seed, not on the data
    of the call. *)
Theorem seeded_validator_keeps_seed :
  forall (world : Type) (tree : RuleTree world) (seed : jsval)
         (datas : list jsval) (data : jsval),
    isEmpty seed = false ->
    wholeData (invokeAll (createValidator tree seed) datas) = seed
    /\ snd (invoke (invokeAll (createValidator tree seed) datas) data)
       = runValidator validateFunction tree seed data
    /\ (forall (key : string) (rule : Rule world) (w : world),
          nullish data = false ->
          snd (invoke (invokeAll (createValidator [(key, RSRule rule)] seed)
                         datas) data) w
          = match rule (propOf data key) seed w with
            | (Resolved out, w1) =>
                (Resolved (returnUndefinedOnSuccess (storeErrors key [] out)),
                 w1)
            | (Rejected e, w1) => (Rejected e, w1)
            end).
Proof.
  intros world tree seed datas data Hseed.
  assert (Hdefault : defaultWholeData seed = seed)
    by (destruct seed; try reflexivity; discriminate).
  assert (Hcall : forall t : RuleTree world,
             wholeData (invokeAll (createValidator t seed) datas) = seed
             /\ snd (invoke (invokeAll (createValidator t seed) datas) data)
                = runValidator validateFunction t seed data).
  { intro t.
    destruct (invokeAll_fixed world datas (createValidator t seed))
      as [Hw Hr].
    { cbn [createValidator wholeData]. now rewrite Hdefault. }
    cbn [createValidator wholeData perAttributeRules] in Hw, Hr.
    rewrite Hdefault in Hw. split; [exact Hw|].
    unfold invoke. cbn [snd]. rewrite Hw, Hr.
    unfold captureWholeData. now rewrite Hseed. }
  split; [apply Hcall | split; [apply Hcall|]].
  intros key rule w Hdata.
  rewrite (proj2 (Hcall [(key, RSRule rule)])).
  exact (runValidator_single_rule key rule seed data w Hdata).
Qed.

Lemma seeded_validator_keeps_seed_witness :
  snd (invoke (invokeAll (createValidator [("a", RSRule echoData)] testValues)
                 [VObj []; VObj [("a", VNum 1)]])
         (VObj [("a", VNum 2)])) []
  = (Resolved (VObj [("a", testValues)]), []).
Proof.
  exact (proj2 (proj2 (seeded_validator_keeps_seed Log
                  [("a", RSRule echoData)] testValues
                  [VObj []; VObj [("a", VNum 1)]] (VObj [("a", VNum 2)])
                  eq_refl))
           "a" echoData [] eq_refl).
Defined.

(** ** Validations that pass and validations that reject *)

Lemma firstError_all_pass :
  forall (world : Type) (rules : list (Rule world)),
    Forall alwaysPasses rules ->
    forall (value data : jsval) (w : world),
      exists w', firstError (RSList rules) value data w = (Resolved VUndef, w').
Proof.
  intros world rules Hall.
  induction Hall as [|rule rules Hrule Hrules IH]; intros value data w.
  - eexists; reflexivity.
  - rewrite firstError_cons.
    destruct (Hrule value data w) as [w1 Hout]. rewrite Hout. apply IH.
Qed.

Lemma runAttributes_stores_nothing :
  forall (world : Type) (wd cur : jsval),
    nullish cur = false ->
    forall tree : RuleTree world,
      Forall (fun attr => storesNothing (snd attr)) tree ->
      forall (errors : object) (w : world),
        exists w', runAttributes tree wd cur errors w = (Resolved errors, w').
Proof.
  intros world wd cur Hcur tree Hall.
  induction Hall as [|[key spec] tree Hspec Hrest IH]; intros errors w.
  - rewrite runAttributes_nil. eexists; reflexivity.
  - rewrite runAttributes_cons.
    destruct (Hspec key wd cur (propOf cur key) errors w Hcur)
      as [r [w1 [Hexec Hsame]]].
    cbn [snd] in Hexec. rewrite Hexec, Hsame. apply IH.
Qed.

Lemma validate_passes_if :
  forall (world : Type) (tree : RuleTree world) (seed cur : jsval) (w : world),
    nullish cur = false ->
    Forall (fun attr => storesNothing (snd attr)) tree ->
    exists w', validate tree seed cur w = (Resolved VUndef, w').
Proof.
  intros world tree seed cur w Hcur Hall.
  rewrite validate_unfold, collectErrors_runAttributes by exact Hcur.
  destruct (runAttributes_stores_nothing world
              (captureWholeData (defaultWholeData seed) cur) cur Hcur
              tree Hall [] w) as [w1 Hrun].
  rewrite Hrun. eexists; reflexivity.
Qed.

Lemma storesNothing_rules :
  forall (world : Type) (spec : RuleSpec world),
    (forall nested, spec <> RSTree nested) ->
    Forall alwaysPasses (castArray spec) ->
    storesNothing spec.
Proof.
  intros world spec Hrules Hall key wd cur dv errors w Hcur.
  rewrite validateFunction_rules by exact Hrules.
  rewrite getProp_propOf by exact Hcur.
  assert (Hfirst : exists w',
             firstError spec (propOf cur key) wd w = (Resolved VUndef, w')).
  { destruct spec as [rule|rules|nested].
    - rewrite firstError_single. apply firstError_all_pass, Hall.
    - apply firstError_all_pass, Hall.
    - exfalso. exact (Hrules nested eq_refl). }
  destruct Hfirst as [w1 Hout]. rewrite Hout.
  eexists; eexists; split; reflexivity.
Qed.

Lemma validateFunction_storesNothing :
  forall (world : Type) (spec : RuleSpec world),
    ForallRules alwaysPasses spec -> storesNothing spec.
Proof.
  intros world spec.
  induction spec as [rule|rules|attrs IH] using RuleSpec_nested_ind;
    intro Hall; inversion Hall as [? Hrule|? Hrules|? Hattrs]; subst.
  - apply storesNothing_rules; [discriminate|].
    constructor; [exact Hrule | constructor].
  - apply storesNothing_rules; [discriminate | exact Hrules].
  - intros key wd cur dv errors w Hcur.
    rewrite validateFunction_tree.
    destruct dv; cbn [isPlainObject negb];
      try (eexists; eexists; split; reflexivity).
    destruct (validate_passes_if world attrs wd (VObj props) w eq_refl)
      as [w1 Hval].
    + rewrite Forall_forall in *. intros attr Hin.
      apply IH; [exact Hin | apply Hattrs, Hin].
    + rewrite Hval. eexists; eexists; split; reflexivity.
Qed.

(** X12 -- When every rule of the tree, at every depth, resolves with
    [undefined] on whatever it is called, the validator called on data
    that can be read resolves with [undefined], whatever the shape of the
    data: an attribute with a nested tree and a value that is no plain
    object stores nothing either. *)
Theorem passing_rules_resolve_undefined :
  forall (world : Type) (tree : RuleTree world) (seed data : jsval)
         (w : world),
    ForallRules alwaysPasses (RSTree tree) ->
    nullish data = false ->
    exists w', validate tree seed data w = (Resolved VUndef, w').
Proof.
  intros world tree seed data w Hall Hdata.
  apply validate_passes_if; [exact Hdata|].
  inversion Hall as [| |? Hattrs]; subst.
  rewrite Forall_forall in *. intros attr Hin.
  apply validateFunction_storesNothing, Hattrs, Hin.
Qed.

Lemma passing_rules_resolve_undefined_witness :
  exists w',
    validate [("deal", RSList [passing; logged "deal" passing]);
              ("car", RSTree [("make", RSRule (logged "make" passing))]);
              ("owner", RSTree [("name", RSRule passing)])]
      VUndef (VObj [("deal", VNum 5); ("car", VObj []); ("owner", VNum 1)]) []
    = (Resolved VUndef, w').
Proof.
  apply (passing_rules_resolve_undefined Log
           [("deal", RSList [passing; logged "deal" passing]);
            ("car", RSTree [("make", RSRule (logged "make" passing))]);
            ("owner", RSTree [("name", RSRule passing)])]
           VUndef (VObj [("deal", VNum 5); ("car", VObj []); ("owner", VNum 1)])
           []); [|reflexivity].
  repeat constructor; intros value data w; eexists; reflexivity.
Defined.

(** X13 -- A rule that rejects rejects the validation: when the
    attributes before it have run and the rule of the next attribute
    rejects, the validator rejects with the reason of the rule in the
    world the rule left; the errors stored so far are not reported and
    the attributes after it are not validated. *)
Theorem rejecting_rule_rejects_validation :
  forall (world : Type) (before after : RuleTree world) (key : string)
         (rule : Rule world) (seed data : jsval) (w w1 w2 : world)
         (errors : object) (e : jsval),
    nullish data = false ->
    runAttributes before (captureWholeData (defaultWholeData seed) data)
      data [] w = (Resolved errors, w1) ->
    rule (propOf data key) (captureWholeData (defaultWholeData seed) data) w1
    = (Rejected e, w2) ->
    validate (before ++ (key, RSRule rule) :: after)%list seed data w
    = (Rejected e, w2).
Proof.
  intros world before after key rule seed data w w1 w2 errors e
         Hdata Hbefore Hrule.
  rewrite validate_unfold, collectErrors_runAttributes by exact Hdata.
  rewrite runAttributes_app, Hbefore, runAttributes_cons.
  rewrite validateFunction_rules by discriminate.
  rewrite getProp_propOf by exact Hdata.
  rewrite firstError_single, firstError_cons, Hrule. reflexivity.
Qed.

Lemma rejecting_rule_rejects_validation_witness :
  validate ([("deal", RSRule (logged "deal" (failing "Some error")))]
            ++ ("car", RSRule (logged "car" (rejecting "database down")))
            :: [("owner", RSRule (logged "owner" passing))])%list
    VUndef testValues []
  = (Rejected (VStr "database down"), ["deal"; "car"]).
Proof.
  exact (rejecting_rule_rejects_validation Log
           [("deal", RSRule (logged "deal" (failing "Some error")))]
           [("owner", RSRule (logged "owner" passing))]
           "car" (logged "car" (rejecting "database down"))
           VUndef testValues [] ["deal"] ["deal"; "car"]
           [("deal", VStr "Some error")] (VStr "database down")
           eq_refl eq_refl eq_refl).
Defined.
